(** * Learn and Conquer: the view controllers of [src/App.tsx] and the
    streaming client of the content service, as state machines.

  Every React component of the application keeps its state in [useState]
  cells and changes it from event handlers and effects.  A component is
  modelled here as a record of its cells; a handler is a function from the
  record to the record after the handler's [setState] calls have been
  applied (React applies them in the order they were queued), together
  with the list of outward effects the handler performed ([alert],
  [prompt], audio, a call to the content service).  Calls that suspend
  ([await]) are split at the suspension point: what the service answers is
  an input of the continuation.

  JavaScript numbers that hold counters and indices are [Z]; [%] is the
  truncated remainder [Z.rem]; strings are [string]; [undefined] and
  [null] are [None]. *)

From Stdlib Require Import ZArith Bool Lia Ascii String DecimalString.
From Stdlib Require DecimalZ DecimalPos.
From stdpp Require Import base list strings.

Local Open Scope string_scope.
Local Open Scope list_scope.
Local Open Scope Z_scope.

(** ** JavaScript conventions shared by the components *)

(** Truthiness of a value of type [string | undefined]: only a defined,
  non-empty string passes [if (x)]. *)
Definition truthy (x : option string) : bool :=
  match x with
  | Some s => negb (String.eqb s "")
  | None => false
  end.

(** [n.toString()] for an integer-valued number. *)
Definition toString (n : Z) : string := NilZero.string_of_int (Z.to_int n).

(** The integer a decimal string stands for, when it is one. *)
Definition readNumber (s : string) : option Z :=
  Z.of_int <$> NilZero.int_of_string s.

(** [xs[i]] for a JavaScript array: [undefined] outside the array. *)
Definition at_index {A} (xs : list A) (i : Z) : option A :=
  if i <? 0 then None else xs !! Z.to_nat i.

(** [xs.length] as a number. *)
Definition len {A} (xs : list A) : Z := Z.of_nat (length xs).

(** [a % b] on integers: the truncated remainder; [NaN], which no integer
  stands for, when [b] is zero. *)
Definition js_rem (a b : Z) : option Z :=
  if b =? 0 then None else Some (Z.rem a b).

(** How a handler ended: it returned, or it threw a [TypeError] by reading a
  property of [undefined].  The [setState] calls made before the throw
  stay queued and are applied all the same. *)
Inductive Completion := Normal | TypeError.

(** ** Quiz: [QuizView] *)

Module Quiz.

Record QuizQuestion := mkQuestion {
  question : string;
  options : list string;
  correctAnswerIndex : Z;
  explanation : string
}.

Record QuizState := mkQuiz {
  questions : list QuizQuestion;
  currentIndex : Z;
  score : Z;
  selectedAnswer : option Z;
  showResult : bool;
  isLoading : bool
}.

Definition initial : QuizState := mkQuiz [] 0 0 None false false.

(** [handleStart] after [generateQuiz] answered with [qs]: the five setters
    of the [try] block and the [finally]. *)
Definition handleStart_loaded (qs : list QuizQuestion) (st : QuizState) : QuizState :=
  mkQuiz qs 0 0 None false false.

(** [handleStart] when [generateQuiz] failed: only the [finally]. *)
Definition handleStart_failed (st : QuizState) : QuizState :=
  mkQuiz (questions st) (currentIndex st) (score st) (selectedAnswer st)
         (showResult st) false.

Definition handleAnswer (index : Z) (st : QuizState) : QuizState * Completion :=
  match selectedAnswer st with
  | Some _ => (st, Normal)
  | None =>
      let st1 := mkQuiz (questions st) (currentIndex st) (score st) (Some index)
                        (showResult st) (isLoading st) in
      match at_index (questions st) (currentIndex st) with
      | None => (st1, TypeError)
      | Some q =>
          if index =? correctAnswerIndex q then
            (mkQuiz (questions st1) (currentIndex st1) (score st1 + 1)
                    (selectedAnswer st1) (showResult st1) (isLoading st1), Normal)
          else (st1, Normal)
      end
  end.

Definition nextQuestion (st : QuizState) : QuizState :=
  if currentIndex st <? len (questions st) - 1 then
    mkQuiz (questions st) (currentIndex st + 1) (score st) None
           (showResult st) (isLoading st)
  else
    mkQuiz (questions st) (currentIndex st) (score st) (selectedAnswer st)
           true (isLoading st).

(** What the component shows. *)
Inductive Screen :=
| StartForm
| ResultScreen (shownScore : Z) (total : Z)
| QuestionScreen (number total shownScore : Z) (q : QuizQuestion)
                 (answered : bool).

(** The JSX of the component; [None] when reading [questions[currentIndex]]
    throws. *)
Definition render (st : QuizState) : option Screen :=
  if (len (questions st) =? 0) || showResult st then
    if showResult st then Some (ResultScreen (score st) (len (questions st)))
    else Some StartForm
  else
    match at_index (questions st) (currentIndex st) with
    | None => None
    | Some q =>
        Some (QuestionScreen (currentIndex st + 1) (len (questions st)) (score st) q
                (match selectedAnswer st with Some _ => true | None => false end))
    end.

(** The two clicks of the question screen. *)
Inductive Event := Answer (index : Z) | Next.

Definition step (e : Event) (st : QuizState) : QuizState * Completion :=
  match e with
  | Answer i => handleAnswer i st
  | Next => (nextQuestion st, Normal)
  end.

Definition threw (c : Completion) : bool :=
  match c with Normal => false | TypeError => true end.

(** A sequence of clicks; the flag tells whether some handler threw. *)
Fixpoint run (es : list Event) (st : QuizState) : QuizState * bool :=
  match es with
  | [] => (st, false)
  | e :: es' =>
      let '(st1, c) := step e st in
      let '(st2, b) := run es' st1 in
      (st2, threw c || b)
  end.

(** The clicks of one question: a first click on an option, any further
    clicks on options, then the Next / Finish button. *)
Definition clicks (attempt : Z * list Z) : list Event :=
  Answer (fst attempt) :: map Answer (snd attempt) ++ [Next].

(** A full run: the clicks of each question in turn. *)
Definition fullRun (attempts : list (Z * list Z)) : list Event :=
  concat (map clicks attempts).

(** The number of questions whose first selection is the correct option. *)
Fixpoint firstSelectionsCorrect (qs : list QuizQuestion)
    (attempts : list (Z * list Z)) : Z :=
  match qs, attempts with
  | q :: qs', a :: attempts' =>
      (if fst a =? correctAnswerIndex q then 1 else 0)
      + firstSelectionsCorrect qs' attempts'
  | _, _ => 0
  end.

(** A three-question quiz used in the examples. *)
Definition sampleQuiz : list QuizQuestion :=
  [ mkQuestion "2 + 2" ["3"; "4"; "5"] 1 "sum";
    mkQuestion "3 * 3" ["9"; "6"] 0 "product";
    mkQuestion "7 - 2" ["4"; "6"; "5"] 2 "difference" ].

(** The Try Another button of the result screen: [setQuestions([])]. *)
Definition tryAnother (st : QuizState) : QuizState :=
  mkQuiz [] (currentIndex st) (score st) (selectedAnswer st) (showResult st)
         (isLoading st).

Inductive Effect :=
| GenerateQuiz (topic requirements : string)
| Alert (msg : string).

(** [handleStart] with the two text fields and what [generateQuiz] answers
    ([None]: the call failed). *)
Definition handleStart (topic requirements : string)
    (answer : option (list QuizQuestion)) (st : QuizState)
    : QuizState * list Effect :=
  if String.eqb topic "" then (st, [])
  else
    match answer with
    | Some qs => (handleStart_loaded qs st, [GenerateQuiz topic requirements])
    | None =>
        (handleStart_failed st,
         [GenerateQuiz topic requirements; Alert "Quiz generation failed."])
    end.

(** Every button of the component. *)
Inductive Press :=
| PressStart (topic requirements : string) (answer : option (list QuizQuestion))
| PressOption (index : Z)
| PressNext
| PressTryAnother.

(** A press acts when the JSX renders its button and the button is not
    disabled: Start on the form while not loading, Try Another on the
    result screen, an option on an unanswered question, Next / Finish on an
    answered one. *)
Definition press (p : Press) (st : QuizState) : QuizState :=
  match render st, p with
  | Some StartForm, PressStart topic requirements answer =>
      if isLoading st then st else fst (handleStart topic requirements answer st)
  | Some (ResultScreen _ _), PressTryAnother => tryAnother st
  | Some (QuestionScreen _ _ _ _ false), PressOption i => fst (handleAnswer i st)
  | Some (QuestionScreen _ _ _ _ true), PressNext => nextQuestion st
  | _, _ => st
  end.

Definition presses (ps : list Press) (st : QuizState) : QuizState :=
  foldl (fun s p => press p s) st ps.

(** What every click sequence keeps on a loaded quiz: the questions, an index
    inside them, and a score between zero and the number of questions
    answered so far. *)
Definition inProgress (qs : list QuizQuestion) (st : QuizState) : Prop :=
  questions st = qs /\
  0 <= currentIndex st < len qs /\
  0 <= score st <=
    currentIndex st + (match selectedAnswer st with Some _ => 1 | None => 0 end).

End Quiz.

(** ** Flashcards: [FlashcardView] *)

Module Flashcards.

Record Flashcard := mkCard {
  front : string;
  back : string;
  imageKeyword : option string;
  generatedImage : option string
}.

Definition setGeneratedImage (img : option string) (c : Flashcard) : Flashcard :=
  mkCard (front c) (back c) (imageKeyword c) img.

(** A call of [generateIllustration] that has not answered yet, with what
    the waiting closure of [loadImg] holds: the [cards] array and the
    [currentIndex] of the render that issued it. *)
Record Pending := mkPending {
  seenCards : list nat;
  seenIndex : Z;
  keyword : string
}.

(** Card objects live in a store and arrays hold their addresses:
    [[...cards]] copies the addresses, so the copy and the original share
    the card objects. *)
Record FlashState := mkFlash {
  heap : list Flashcard;
  cards : list nat;
  currentIndex : Z;
  isFlipped : bool;
  isLoading : bool;
  pending : list Pending
}.

Definition initial : FlashState := mkFlash [] [] 0 false false [].

(** The card object behind [cards[currentIndex]]. *)
Definition cardAt (h : list Flashcard) (cs : list nat) (i : Z) : option Flashcard :=
  at_index cs i ≫= fun a => h !! a.

(** [!card.generatedImage && card.imageKeyword]. *)
Definition wantsImage (c : Flashcard) : bool :=
  negb (truthy (generatedImage c)) && truthy (imageKeyword c).

(** The effect on [[currentIndex, cards]]: [loadImg] up to its [await]. *)
Definition imageEffect (st : FlashState) : FlashState :=
  if 0 <? len (cards st) then
    match cardAt (heap st) (cards st) (currentIndex st) with
    | Some card =>
        if wantsImage card then
          mkFlash (heap st) (cards st) (currentIndex st) (isFlipped st) (isLoading st)
            (pending st ++
             [mkPending (cards st) (currentIndex st) (default "" (imageKeyword card))])
        else st
    | None => st
    end
  else st.

(** [handleGenerate] after [generateFlashcards] answered: the new card
    objects are allocated, the three setters and the [finally] run, and
    the effect follows because [cards] changed. *)
Definition handleGenerate_loaded (newCards : list Flashcard) (st : FlashState)
    : FlashState :=
  imageEffect
    (mkFlash (heap st ++ newCards)
             (seq (length (heap st)) (length newCards))
             0 false false (pending st)).

(** [setIsFlipped(false); setCurrentIndex(i)], and the effect when the
    index changed. *)
Definition goTo (i : Z) (st : FlashState) : FlashState :=
  let st1 := mkFlash (heap st) (cards st) i false (isLoading st) (pending st) in
  if i =? currentIndex st then st1 else imageEffect st1.

Definition nextIndex (prev n : Z) : option Z := js_rem (prev + 1) n.
Definition prevIndex (prev n : Z) : option Z := js_rem (prev - 1 + n) n.

(** [None]: the new index is [NaN] (the card list is empty). *)
Definition handleNext (st : FlashState) : option FlashState :=
  i ← nextIndex (currentIndex st) (len (cards st)); Some (goTo i st).

Definition handlePrev (st : FlashState) : option FlashState :=
  i ← prevIndex (currentIndex st) (len (cards st)); Some (goTo i st).

Definition handleFlip (st : FlashState) : FlashState :=
  mkFlash (heap st) (cards st) (currentIndex st) (negb (isFlipped st))
          (isLoading st) (pending st).

(** The rest of [loadImg] when the [k]-th pending call answers [imgData]:
    with an image, the card object at [seenIndex] of the copied array gets
    it and the copy becomes [cards], which runs the effect again. *)
Definition resolve (k : nat) (imgData : option string) (st : FlashState)
    : FlashState :=
  match pending st !! k with
  | None => st
  | Some p =>
      let rest := delete k (pending st) in
      if truthy imgData then
        match at_index (seenCards p) (seenIndex p) with
        | Some a =>
            imageEffect
              (mkFlash (alter (setGeneratedImage imgData) a (heap st))
                       (seenCards p) (currentIndex st) (isFlipped st)
                       (isLoading st) rest)
        | None =>
            mkFlash (heap st) (cards st) (currentIndex st) (isFlipped st)
                    (isLoading st) rest
        end
      else
        mkFlash (heap st) (cards st) (currentIndex st) (isFlipped st)
                (isLoading st) rest
  end.

Inductive Event :=
| Generated (newCards : list Flashcard)
| Next
| Prev
| Flip
| Resolved (k : nat) (imgData : option string).

(** The card and its buttons are rendered only when there are cards. *)
Definition step (e : Event) (st : FlashState) : FlashState :=
  match e with
  | Generated cs => handleGenerate_loaded cs st
  | Next => default st (handleNext st)
  | Prev => default st (handlePrev st)
  | Flip => if 0 <? len (cards st) then handleFlip st else st
  | Resolved k img => resolve k img st
  end.

Definition run (es : list Event) (st : FlashState) : FlashState :=
  foldl (fun s e => step e s) st es.

(** The image stored in the card object at address [a]. *)
Definition imageOf (st : FlashState) (a : nat) : option string :=
  heap st !! a ≫= generatedImage.

(** Two cards with image keywords and no image, as the service sends
    them. *)
Definition twoCards : list Flashcard :=
  [ mkCard "Chlorophyll" "The green pigment of plants" (Some "leaf") None;
    mkCard "Stomata" "Pores of the leaf surface" (Some "pore") None ].

(** The card set loads; the learner moves on to the second card while the
    illustration of the first is still being drawn; that illustration
    arrives; then the two illustrations requested for the second card
    arrive one after the other. *)
Definition browseAhead : list Event :=
  [ Generated twoCards; Next;
    Resolved 0 (Some "data:image/png;base64,Zmlyc3Q=");
    Resolved 0 (Some "data:image/png;base64,c2Vjb25k") ].

Definition lateAnswer : Event :=
  Resolved 0 (Some "data:image/png;base64,dGhpcmQ=").

(** Three cards on screen, the last one current. *)
Definition onLastOfThree : FlashState :=
  mkFlash [ mkCard "a" "A" None None; mkCard "b" "B" None None;
            mkCard "c" "C" None None ]
          [0%nat; 1%nat; 2%nat] 2 false false [].

Definition isGenerated (e : Event) : bool :=
  match e with Generated _ => true | _ => false end.

(** Every waiting closure holds the card list that is on screen, every
    address of the list is in the store, and the index is not negative and,
    when there are cards, inside the list. *)
Definition consistent (st : FlashState) : Prop :=
  Forall (fun p => seenCards p = cards st) (pending st) /\
  Forall (fun a => (a < length (heap st))%nat) (cards st) /\
  0 <= currentIndex st /\
  (cards st = [] \/ currentIndex st < len (cards st)).

(** The texts of a card, which no handler writes. *)
Definition sameText (c c' : Flashcard) : Prop :=
  front c' = front c /\ back c' = back c /\ imageKeyword c' = imageKeyword c.

(** A card with a keyword and no image. *)
Definition plainCard : Flashcard := mkCard "Osmosis" "Water crossing a membrane" (Some "membrane") None.

End Flashcards.

(** ** Library: [LibraryView] *)

Module Library.

Record Book := mkBook {
  id : string;
  title : string;
  author : string;
  coverColor : string;
  summary : string;
  content : string
}.

(** What [findExternalBookResource] resolves to. *)
Record Resource := mkResource {
  found : bool;
  resourceTitle : option string;
  resourceLink : option string;
  resourceDescription : option string
}.

(** The call resolves or rejects. *)
Inductive Answer := Resolves (r : Resource) | Rejects.

Record ExternalLink := mkLink {
  linkTitle : option string;
  link : option string;
  description : option string
}.

Record LibraryState := mkLibrary {
  searchQuery : string;
  books : list Book;
  searching : bool;
  externalLink : option ExternalLink
}.

Definition seedBooks : list Book :=
  [ mkBook "1" "Physics I" "OpenStax" "bg-blue-500"
           "Mechanics, Waves, and Thermodynamics." "Sample content...";
    mkBook "2" "World History" "CrashCourse" "bg-amber-600"
           "From ancient civilizations to modern times." "Sample content..." ].

Definition initial : LibraryState := mkLibrary "" seedBooks false None.

Inductive Effect := FindExternal (query : string).

(** [toLowerCase] on the one-byte characters of [string], read as the code
    units U+0000 to U+00FF: the letters A to Z (U+0041 to U+005A) and the
    capital letters U+00C0 to U+00DE, among which the sign U+00D7 is no
    letter, move 32 up to their small letter; every other character stays
    (U+00DF, U+00FF and U+00B5 are small letters already).  Titles and
    queries are texts over this alphabet; code units above U+00FF are not
    represented. *)
Definition lowerChar (c : ascii) : ascii :=
  let n := nat_of_ascii c in
  if ((Nat.leb 65 n && Nat.leb n 90)
      || (Nat.leb 192 n && Nat.leb n 222 && negb (Nat.eqb n 215)))%bool
  then ascii_of_nat (n + 32) else c.

Fixpoint toLowerCase (s : string) : string :=
  match s with
  | EmptyString => EmptyString
  | String c s' => String (lowerChar c) (toLowerCase s')
  end.

Fixpoint startsWith (s sub : string) : bool :=
  match sub, s with
  | EmptyString, _ => true
  | String _ _, EmptyString => false
  | String b sub', String a s' => Ascii.eqb a b && startsWith s' sub'
  end.

(** [s.includes(sub)]. *)
Fixpoint includes (s sub : string) : bool :=
  startsWith s sub ||
  match s with
  | EmptyString => false
  | String _ s' => includes s' sub
  end.

(** The predicate of both filters:
    [b.title.toLowerCase().includes(searchQuery.toLowerCase())]. *)
Definition titleMatches (query : string) (b : Book) : bool :=
  includes (toLowerCase (title b)) (toLowerCase query).

(** The list the component renders. *)
Definition filteredBooks (st : LibraryState) : list Book :=
  List.filter (titleMatches (searchQuery st)) (books st).

Definition setExternalLink (l : option ExternalLink) (st : LibraryState) :=
  mkLibrary (searchQuery st) (books st) (searching st) l.

Definition setSearching (b : bool) (st : LibraryState) :=
  mkLibrary (searchQuery st) (books st) b (externalLink st).

(** [handleSearch] up to its [await]: the state, and the call it made. *)
Definition handleSearch_issue (st : LibraryState) : LibraryState * list Effect :=
  let st1 := setExternalLink None st in
  let localResults := List.filter (titleMatches (searchQuery st)) (books st) in
  if (len localResults =? 0) && (3 <? Z.of_nat (String.length (searchQuery st))) then
    (setSearching true st1, [FindExternal (searchQuery st)])
  else (st1, []).

(** The rest of [handleSearch] once the call has answered. *)
Definition handleSearch_answered (answer : Answer) (st : LibraryState) : LibraryState :=
  match answer with
  | Resolves r =>
      setSearching false
        (if found r then
           setExternalLink
             (Some (mkLink (resourceTitle r) (resourceLink r) (resourceDescription r))) st
         else st)
  | Rejects => setSearching false st
  end.

(** The whole handler, given what the service would answer. *)
Definition handleSearch (answer : Answer) (st : LibraryState)
    : LibraryState * list Effect :=
  let '(st1, calls) := handleSearch_issue st in
  match calls with
  | [] => (st1, [])
  | _ :: _ => (handleSearch_answered answer st1, calls)
  end.

(** Letter case, said without [toLowerCase]: the capital letters of the
    one-byte alphabet, and two characters that are the same or the capital
    and the small form of one letter (the small form is 32 above the
    capital). *)
Definition isCapital (n : nat) : bool :=
  ((Nat.leb 65 n && Nat.leb n 90)
   || (Nat.leb 192 n && Nat.leb n 214) || (Nat.leb 216 n && Nat.leb n 222))%bool.

Definition sameLetter (a b : ascii) : bool :=
  let x := nat_of_ascii a in
  let y := nat_of_ascii b in
  (Nat.eqb x y || (isCapital x && Nat.eqb y (x + 32))
   || (isCapital y && Nat.eqb x (y + 32)))%bool.

(** Two texts of the same length that agree character by character up to
    letter case. *)
Fixpoint sameText (s t : string) : bool :=
  match s, t with
  | EmptyString, EmptyString => true
  | String a s', String b t' => sameLetter a b && sameText s' t'
  | _, _ => false
  end.

(** Case-insensitive substring match: the title is some text, then a
    passage that is the query up to letter case, then some text. *)
Definition containsIgnoringCase (query titleText : string) : Prop :=
  exists before passage after,
    titleText = before +:+ passage +:+ after /\ sameText passage query = true.

(** Every character of the one-byte alphabet. *)
Definition allAscii : list ascii := List.map ascii_of_nat (seq 0 256).

(** The title "ecole" with an acute first letter (U+00E9), and the same word
    in capitals (U+00C9 first). *)
Definition ecole : string := String "233"%char "cole".
Definition ECOLE : string := String "201"%char "COLE".

Definition typed (q : string) (st : LibraryState) : LibraryState :=
  mkLibrary q (books st) (searching st) (externalLink st).

Inductive Dialog := Prompt (msg : string).

(** [handleAddBook]; [reply] is what the [prompt] dialog returns when it is
    shown, [now] the reading of [Date.now()]. *)
Definition handleAddBook (isAdminMode : bool) (reply : option string) (now : Z)
    (st : LibraryState) : LibraryState * list Dialog :=
  if negb isAdminMode then (st, [])
  else if truthy reply then
    (mkLibrary (searchQuery st)
       (books st ++ [mkBook (toString now) (default "" reply) "Unknown" "bg-gray-500"
                            "Added manually" ""])
       (searching st) (externalLink st),
     [Prompt "Book Title:"])
  else (st, [Prompt "Book Title:"]).

End Library.

(** ** Settings: the owner-mode switch of [SettingsView] and [App] *)

Module Settings.

Record User := mkUser {
  name : string;
  email : string;
  isLoggedIn : bool
}.

Inductive Effect :=
| Prompt (msg : string)
| Alert (msg : string).

Definition ownerEmail : string := "agdealers8@gmail.com".
Definition ownerPassword : string := "ag12de34".
Definition denial : string := "Incorrect Password. Access Denied.".

(** [App]: [onToggleAdmin={() => setIsAdminMode(!isAdminMode)}]. *)
Definition onToggleAdmin (isAdminMode : bool) : bool := negb isAdminMode.

(** [handleAdminToggle]; [typed] is what the [prompt] dialog returns when
    it is shown: the text on OK, [null] on Cancel. *)
Definition handleAdminToggle (typed : option string) (isAdminMode : bool)
    : bool * list Effect :=
  if isAdminMode then (onToggleAdmin isAdminMode, [])
  else
    match typed with
    | Some pwd =>
        if String.eqb pwd ownerPassword then
          (onToggleAdmin isAdminMode, [Prompt "Enter Owner Password:"])
        else (isAdminMode, [Prompt "Enter Owner Password:"; Alert denial])
    | None => (isAdminMode, [Prompt "Enter Owner Password:"; Alert denial])
    end.

(** The switch is rendered under [user.email === 'agdealers8@gmail.com']. *)
Definition ownerSwitchRendered (u : User) : bool := String.eqb (email u) ownerEmail.

Definition isAlert (e : Effect) : bool :=
  match e with Alert _ => true | Prompt _ => false end.

Definition isPrompt (e : Effect) : bool :=
  match e with Prompt _ => true | Alert _ => false end.

End Settings.

(** ** Chat: [streamChatResponse] of the service client and [ChatView] *)

Module Chat.

Inductive Role := user | model.

Record Message := mkMessage {
  id : string;
  role : Role;
  text : string;
  timestamp : Z
}.

Inductive Language :=
| ENGLISH | SPANISH | FRENCH | MANDARIN | ARABIC | URDU | HINDI.

Record ChatState := mkChat {
  messages : list Message;
  input : string;
  isTyping : bool;
  isVoiceMode : bool
}.

Inductive Effect := Speak (utterance lang : string).

(** How the stream of the provider ends: it is exhausted, or the call
    raises (before the first chunk or after any number of them). *)
Inductive StreamEnd := Exhausted | Raised.

(** What the provider delivers for one turn: the [text] of each chunk in
    arrival order ([undefined] for a chunk without text) and the end. *)
Record Stream := mkStream {
  chunks : list (option string);
  ending : StreamEnd
}.

(** The [for await] loop of [streamChatResponse], over the state [S] its
    callback works on. *)
Fixpoint streamLoop {S : Type} (onChunk : string -> S -> S)
    (cs : list (option string)) (fullText : string) (s : S) : string * S :=
  match cs with
  | [] => (fullText, s)
  | c :: rest =>
      if truthy c then
        let text := default "" c in
        streamLoop onChunk rest (fullText +:+ text) (onChunk text s)
      else streamLoop onChunk rest fullText s
  end.

(** [streamChatResponse]: the value the promise resolves to, or [None]
    when it rejects, and the state the callback left. *)
Definition streamChatResponse {S : Type} (onChunk : string -> S -> S)
    (stream : Stream) (s : S) : option string * S :=
  let '(fullText, s') := streamLoop onChunk (chunks stream) "" s in
  match ending stream with
  | Exhausted => (Some fullText, s')
  | Raised => (None, s')
  end.

(** The white space [trim] removes, among one-byte characters. *)
Definition isWhiteSpace (c : ascii) : bool :=
  let n := nat_of_ascii c in
  (Nat.leb 9 n && Nat.leb n 13)%bool || Nat.eqb n 32 || Nat.eqb n 160.

(** [!input.trim()]. *)
Fixpoint isBlank (s : string) : bool :=
  match s with
  | EmptyString => true
  | String c s' => isWhiteSpace c && isBlank s'
  end.

(** [prev.map(m => m.id === aiMsgId ? { ...m, text } : m)]. *)
Definition setText (aiMsgId newText : string) (prev : list Message) : list Message :=
  map (fun m => if String.eqb (id m) aiMsgId
                then mkMessage (id m) (role m) newText (timestamp m)
                else m) prev.

(** What the callback of [handleSend] works on: its local [fullText] and
    the [messages] cell. *)
Record Turn := mkTurn {
  buffer : string;
  shown : list Message
}.

Definition onChunk (aiMsgId chunk : string) (t : Turn) : Turn :=
  let fullText := buffer t +:+ chunk in
  mkTurn fullText (setText aiMsgId fullText (shown t)).

(** The four readings of [Date.now()] in [handleSend], in order. *)
Record Clock := mkClock {
  userIdTime : Z;
  userStamp : Z;
  aiIdTime : Z;
  aiStamp : Z
}.

Definition apology : string := "I'm having trouble connecting. Please try again.".

Definition langTag (l : Language) : string :=
  match l with
  | SPANISH => "es-ES"
  | FRENCH => "fr-FR"
  | MANDARIN => "zh-CN"
  | HINDI => "hi-IN"
  | _ => "en-US"
  end.

Definition aiMsgId (clock : Clock) : string := toString (aiIdTime clock + 1).

Definition placeholder (clock : Clock) : Message :=
  mkMessage (aiMsgId clock) model "" (aiStamp clock).

(** The two optimistic appends. *)
Definition opened (clock : Clock) (st : ChatState) : list Message :=
  (messages st ++ [mkMessage (toString (userIdTime clock)) user (input st)
                             (userStamp clock)])
  ++ [placeholder clock].

(** The turn while it streams, after the chunks [cs] have arrived. *)
Definition streaming (clock : Clock) (cs : list (option string)) (st : ChatState)
    : ChatState :=
  mkChat (shown (snd (streamLoop (onChunk (aiMsgId clock)) cs ""
                        (mkTurn "" (opened clock st)))))
         "" true (isVoiceMode st).

(** [handleSend], given the clock, whether the browser has
    [speechSynthesis], the language of the settings and what the provider
    delivers. *)
Definition handleSend (clock : Clock) (hasSpeech : bool) (lang : Language)
    (stream : Stream) (st : ChatState) : ChatState * list Effect :=
  if isBlank (input st) then (st, [])
  else
    let '(result, t) :=
      streamChatResponse (onChunk (aiMsgId clock)) stream
                         (mkTurn "" (opened clock st)) in
    match result with
    | Some _ =>
        (mkChat (shown t) "" false (isVoiceMode st),
         if isVoiceMode st && hasSpeech then [Speak (buffer t) (langTag lang)] else [])
    | None =>
        (mkChat (setText (aiMsgId clock) apology (shown t)) "" false (isVoiceMode st),
         [])
    end.

(** The concatenation, in order, of the fragments that are not empty. *)
Definition joined (cs : list (option string)) : string :=
  foldr (fun c acc => default "" c +:+ acc) "" (List.filter truthy cs).

(** After [n] earlier messages comes the placeholder, last, and it shows
    the buffer. *)
Definition placeholderShows (clock : Clock) (n : nat) (t : Turn) : Prop :=
  exists before,
    length before = n /\
    shown t = before ++ [mkMessage (aiMsgId clock) model (buffer t) (aiStamp clock)].

(** A turn used in the examples. *)
Definition greeting : ChatState :=
  mkChat [mkMessage "1" model "Hi! I'm Learn and Conquer." 1762000000000]
         "What is osmosis?" false false.

Definition sampleClock : Clock :=
  mkClock 1762000003000 1762000003000 1762000003000 1762000003001.

Definition sampleChunks : list (option string) :=
  [Some "Osmosis is "; None; Some ""; Some "the diffusion of water."].

(** The texts the loop hands to its callback: those of the chunks that have
    a non-empty one, in arrival order. *)
Definition texts (cs : list (option string)) : list string :=
  List.map (default "") (List.filter truthy cs).

(** A callback that only notes what it is given. *)
Definition noteChunk (chunk : string) (seen : list string) : list string :=
  seen ++ [chunk].

(** The user's message of a turn. *)
Definition userMessage (clock : Clock) (st : ChatState) : Message :=
  mkMessage (toString (userIdTime clock)) user (input st) (userStamp clock).

Definition completed (fin : StreamEnd) : bool :=
  match fin with Exhausted => true | Raised => false end.

End Chat.

(** ** Planner: the focus timer of [PlannerView] *)

Module Planner.

Inductive TimerMode := work | break.

Record Timer := mkTimer {
  timerSeconds : Z;
  isTimerRunning : bool;
  timerMode : TimerMode
}.

(** What the component does to the outside world. *)
Inductive Effect :=
| AudioPlay (url : string)
| Alert (msg : string).

(** [useState(0)], [useState(false)], [useState('work')]. *)
Definition initial : Timer := mkTimer 0 false work.

Definition setIsTimerRunning (b : bool) (t : Timer) : Timer :=
  mkTimer (timerSeconds t) b (timerMode t).

Definition setTimerSeconds (f : Z -> Z) (t : Timer) : Timer :=
  mkTimer (f (timerSeconds t)) (isTimerRunning t) (timerMode t).

Definition setTimerMode (m : TimerMode) (t : Timer) : Timer :=
  mkTimer (timerSeconds t) (isTimerRunning t) m.

(** The first branch of the effect arms a one-second interval; the
    cleanup function clears it before the effect runs again. *)
Definition intervalArmed (t : Timer) : bool :=
  isTimerRunning t && (0 <? timerSeconds t).

Definition completionMessage (m : TimerMode) : string :=
  match m with
  | work => "Focus session complete! Take a break."
  | break => "Break over! Back to work."
  end.

Definition beepUrl : string :=
  "https://actions.google.com/sounds/v1/alarms/beep_short.ogg".

(** The body of [useEffect(..., [isTimerRunning, timerSeconds, timerMode])]:
    the state after its [setState] calls and the effects it performed. *)
Definition timerEffect (t : Timer) : Timer * list Effect :=
  if isTimerRunning t && (0 <? timerSeconds t) then (t, [])
  else if (timerSeconds t =? 0) && isTimerRunning t then
    (setIsTimerRunning false t,
     [AudioPlay beepUrl; Alert (completionMessage (timerMode t))])
  else (t, []).

(** After a handler changed a dependency React runs the effect; when the
    effect itself changed one, it runs once more. *)
Definition settle (t : Timer) : Timer * list Effect :=
  let '(t1, o1) := timerEffect t in
  let '(t2, o2) := timerEffect t1 in
  (t2, o1 ++ o2).

Definition startTimer (minutes : Z) (mode : TimerMode) (t : Timer) : Timer :=
  setIsTimerRunning true (setTimerSeconds (fun _ => minutes * 60) (setTimerMode mode t)).

(** The callback of the interval, [setTimerSeconds(s => s - 1)]; it only
    exists while the interval is armed. *)
Definition intervalCallback (t : Timer) : Timer :=
  if intervalArmed t then setTimerSeconds (fun s => s - 1) t else t.

(** What can happen to the timer: the three buttons and one second
    passing. *)
Inductive Event := StartFocus | StartBreak | Stop | Tick.

Definition handler (e : Event) (t : Timer) : Timer :=
  match e with
  | StartFocus => startTimer 25 work t
  | StartBreak => startTimer 5 break t
  | Stop => setIsTimerRunning false t
  | Tick => intervalCallback t
  end.

(** The button an event needs is on screen: the two start buttons are
    rendered when the timer is not running, Stop when it is. *)
Definition offered (e : Event) (t : Timer) : bool :=
  match e with
  | StartFocus | StartBreak => negb (isTimerRunning t)
  | Stop => isTimerRunning t
  | Tick => intervalArmed t
  end.

Definition step (e : Event) (t : Timer) : Timer * list Effect :=
  settle (handler e t).

Fixpoint run (es : list Event) (t : Timer) : Timer * list Effect :=
  match es with
  | [] => (t, [])
  | e :: es' =>
      let '(t1, o1) := step e t in
      let '(t2, o2) := run es' t1 in
      (t2, o1 ++ o2)
  end.

Definition isAlert (e : Effect) : bool :=
  match e with Alert _ => true | AudioPlay _ => false end.

Definition isSound (e : Effect) : bool :=
  match e with AudioPlay _ => true | Alert _ => false end.

Definition notification (m : TimerMode) : list Effect :=
  [AudioPlay beepUrl; Alert (completionMessage m)].

(** A state in which the effect has nothing left to do: the timer is not
    both running and at zero. *)
Definition settled (t : Timer) : bool :=
  negb ((timerSeconds t =? 0) && isTimerRunning t).

(** [formatTime]: [Math.floor(seconds / 60)], [seconds % 60], and a zero in
    front of a one-digit second. *)
Definition secondsField (s : Z) : string :=
  (if s <? 10 then "0" else "") +:+ toString s.

Definition formatTime (seconds : Z) : string :=
  let m := seconds / 60 in
  let s := Z.rem seconds 60 in
  toString m +:+ ":" +:+ secondsField s.

Definition isStart (e : Event) : bool :=
  match e with StartFocus | StartBreak => true | _ => false end.

Definition count {A} (f : A -> bool) (l : list A) : Z := len (List.filter f l).

End Planner.

(** ** The content-service client: the one-shot calls of the service file *)

Module Service.

(** What [findExternalBookResource] reads of the provider's response:
    [candidates?.[0]?.groundingMetadata?.groundingChunks] and [text]. *)
Record Web := mkWeb {
  uri : option string;
  webTitle : option string
}.

Record GroundingChunk := mkChunk {
  web : option Web
}.

Record SearchResponse := mkSearchResponse {
  groundingChunks : option (list GroundingChunk);
  responseText : option string
}.

(** [chunk.web?.uri]. *)
Definition chunkUri (c : GroundingChunk) : option string := web c ≫= uri.

(** The [for] loop with its [break]: the [web] of the first chunk whose uri
    is truthy. *)
Fixpoint firstWithUri (chunks : list GroundingChunk) : option Web :=
  match chunks with
  | [] => None
  | c :: rest => if truthy (chunkUri c) then web c else firstWithUri rest
  end.

(** [x || fallback] on strings. *)
Definition orElse (x : option string) (fallback : string) : string :=
  if truthy x then default "" x else fallback.

Definition findExternalBookResource (query : string) (response : SearchResponse)
    : Library.Resource :=
  let hit := groundingChunks response ≫= firstWithUri in
  let link := hit ≫= uri in
  let title := hit ≫= webTitle in
  Library.mkResource (truthy link) (Some (orElse title query)) link
    (Some (orElse (responseText response) "No description available.")).

(** [summarizeText] and [analyzeHandwriting] return [response.text] or a
    fixed sentence. *)
Definition summarizeText (responseText : option string) : string :=
  orElse responseText "Unable to summarize.".

(** What [generateIllustration] reads of the response:
    [candidates?.[0]?.content?.parts]. *)
Record InlineData := mkInline {
  mimeType : option string;
  data : option string
}.

Record Part := mkPart {
  inlineData : option InlineData
}.

Inductive ImageCall :=
| ImageResponds (parts : option (list Part))
| ImageThrows.

(** A value inside a template literal: [undefined] prints as its name. *)
Definition interpolate (x : option string) : string := default "undefined" x.

Definition dataUri (d : InlineData) : string :=
  "data:" +:+ interpolate (mimeType d) +:+ ";base64," +:+ interpolate (data d).

Fixpoint firstInline (parts : list Part) : option InlineData :=
  match parts with
  | [] => None
  | p :: rest =>
      match inlineData p with
      | Some d => Some d
      | None => firstInline rest
      end
  end.

(** [generateIllustration]: the failure is logged and swallowed. *)
Definition generateIllustration (call : ImageCall) : option string :=
  match call with
  | ImageThrows => None
  | ImageResponds parts => dataUri <$> firstInline (default [] parts)
  end.

(** [\w]: a letter, a digit or the underscore. *)
Definition isWordChar (c : ascii) : bool :=
  let n := nat_of_ascii c in
  ((Nat.leb 48 n && Nat.leb n 57) || (Nat.leb 65 n && Nat.leb n 90)
   || (Nat.leb 97 n && Nat.leb n 122) || Nat.eqb n 95)%bool.

(** [s] without [prefix], when it starts with it. *)
Fixpoint dropPrefix (prefix s : string) : option string :=
  match prefix, s with
  | EmptyString, _ => Some s
  | String _ _, EmptyString => None
  | String a prefix', String b s' =>
      if Ascii.eqb a b then dropPrefix prefix' s' else None
  end.

Fixpoint dropWordChars (s : string) : string :=
  match s with
  | EmptyString => EmptyString
  | String c s' => if isWordChar c then dropWordChars s' else s
  end.

(** [base64Image.replace(/^data:image\/\w+;base64,/, "")].  After the word
    characters the pattern wants [;], which is no word character, so only
    the longest run of word characters can match. *)
Definition stripDataPrefix (s : string) : string :=
  match dropPrefix "data:image/" s with
  | Some (String c r) =>
      if isWordChar c then
        match dropPrefix ";base64," (dropWordChars (String c r)) with
        | Some payload => payload
        | None => s
        end
      else s
  | _ => s
  end.

(** [analyzeHandwriting]: the data it sends and the text it returns. *)
Definition analyzeHandwriting (base64Image : string) (responseText : option string)
    : string * string :=
  (stripDataPrefix base64Image, orElse responseText "Could not analyze image.").

Fixpoint allWordChars (s : string) : bool :=
  match s with
  | EmptyString => true
  | String c s' => isWordChar c && allWordChars s'
  end.

(** A response with two citations, the first without a link. *)
Definition sampleResponse : SearchResponse :=
  mkSearchResponse
    (Some [ mkChunk (Some (mkWeb None (Some "No link")));
            mkChunk (Some (mkWeb (Some "https://openstax.org/biology") None));
            mkChunk (Some (mkWeb (Some "https://example.org") (Some "Other"))) ])
    (Some "A free biology textbook.").

End Service.

(** ** Login: the two-step form of [LoginView] *)

Module LoginView.

Record LoginState := mkLogin {
  step : Z;
  name : string;
  email : string;
  isRegister : bool;
  country : string;
  province : string;
  syllabus : string;
  grade : string
}.

(** The [useState] initial values of a freshly mounted form. *)
Definition initial : LoginState := mkLogin 1 "" "" true "" "" "" "".

(** The object [handleFinish] passes as profile:
    [{ country, province, syllabus, userLevel: grade }]. *)
Record Profile := mkProfile {
  profileCountry : string;
  profileProvince : string;
  profileSyllabus : string;
  profileUserLevel : string
}.

Inductive Outcome :=
| OnLogin (name email : string) (profile : Profile)
| Alert (msg : string).

(** The values of the [option] elements of the grade [select]. *)
Definition gradeOptions : list string :=
  [""; "Class 9"; "Class 10"; "Inter Part 1 (11th)"; "Inter Part 2 (12th)";
   "Undergraduate"; "Other"].

Definition nonEmpty (s : string) : bool := negb (String.eqb s "").

Definition setStep (n : Z) (st : LoginState) : LoginState :=
  mkLogin n (name st) (email st) (isRegister st) (country st) (province st)
          (syllabus st) (grade st).

Definition handleNext (st : LoginState) : LoginState :=
  if nonEmpty (name st) && nonEmpty (email st) then setStep 2 st else st.

Definition handleFinish (st : LoginState) : list Outcome :=
  if nonEmpty (country st) && nonEmpty (province st) && nonEmpty (syllabus st)
     && nonEmpty (grade st)
  then [OnLogin (name st) (email st)
          (mkProfile (country st) (province st) (syllabus st) (grade st))]
  else [Alert "Please fill all fields to continue."].

(** What the user can do on the form. *)
Inductive Event :=
| TypeName (s : string)
| TypeEmail (s : string)
| ClickNext
| ToggleRegister
| TypeCountry (s : string)
| TypeProvince (s : string)
| TypeSyllabus (s : string)
| SelectGrade (s : string)
| ClickBack
| ClickFinish.

(** The first four events belong to the form of step 1, the others to the
    form of step 2 ([step === 1 ? ... : ...]); the [select] only offers its
    options. *)
Definition act (e : Event) (st : LoginState) : LoginState * list Outcome :=
  if step st =? 1 then
    match e with
    | TypeName s =>
        (mkLogin (step st) s (email st) (isRegister st) (country st) (province st)
                 (syllabus st) (grade st), [])
    | TypeEmail s =>
        (mkLogin (step st) (name st) s (isRegister st) (country st) (province st)
                 (syllabus st) (grade st), [])
    | ClickNext => (handleNext st, [])
    | ToggleRegister =>
        (mkLogin (step st) (name st) (email st) (negb (isRegister st)) (country st)
                 (province st) (syllabus st) (grade st), [])
    | _ => (st, [])
    end
  else
    match e with
    | TypeCountry s =>
        (mkLogin (step st) (name st) (email st) (isRegister st) s (province st)
                 (syllabus st) (grade st), [])
    | TypeProvince s =>
        (mkLogin (step st) (name st) (email st) (isRegister st) (country st) s
                 (syllabus st) (grade st), [])
    | TypeSyllabus s =>
        (mkLogin (step st) (name st) (email st) (isRegister st) (country st)
                 (province st) s (grade st), [])
    | SelectGrade s =>
        if existsb (String.eqb s) gradeOptions then
          (mkLogin (step st) (name st) (email st) (isRegister st) (country st)
                   (province st) (syllabus st) s, [])
        else (st, [])
    | ClickBack => (setStep 1 st, [])
    | ClickFinish => (st, handleFinish st)
    | _ => (st, [])
    end.

Fixpoint run (es : list Event) (st : LoginState) : LoginState * list Outcome :=
  match es with
  | [] => (st, [])
  | e :: es' =>
      let '(st1, o1) := act e st in
      let '(st2, o2) := run es' st1 in
      (st2, o1 ++ o2)
  end.

(** A call of [onLogin] with nothing left empty and a listed grade. *)
Definition complete (o : Outcome) : bool :=
  match o with
  | OnLogin n e p =>
      nonEmpty n && nonEmpty e && nonEmpty (profileCountry p)
      && nonEmpty (profileProvince p) && nonEmpty (profileSyllabus p)
      && nonEmpty (profileUserLevel p)
      && existsb (String.eqb (profileUserLevel p)) gradeOptions
  | Alert _ => true
  end.

(** What the form keeps: it is on step 1 or 2, on step 2 the name and the
    email are not empty, and the grade is an option of the [select]. *)
Definition wellFormed (st : LoginState) : bool :=
  ((step st =? 1) || ((step st =? 2) && nonEmpty (name st) && nonEmpty (email st)))
  && existsb (String.eqb (grade st)) gradeOptions.

End LoginView.

(** ** The application shell: [App] *)

Module App.

Inductive ViewState :=
| HOME | CHAT | FLASHCARDS | QUIZ | CONTRIBUTE | SETTINGS | PLANNER | LIBRARY
| WHITEBOARD.

Record StudySettings := mkSettings {
  language : Chat.Language;
  syllabus : string;
  userLevel : string;
  country : string;
  province : string
}.

Record AppState := mkApp {
  user : Settings.User;
  currentView : ViewState;
  settings : StudySettings;
  isAdminMode : bool;
  loginForm : LoginView.LoginState
}.

(** The first render: nobody logged in, the login form freshly mounted. *)
Definition initial : AppState :=
  mkApp (Settings.mkUser "" "" false) HOME
        (mkSettings Chat.ENGLISH "" "High School" "" "")
        false LoginView.initial.

(** [setUser(...); setSettings(prev => ({ ...prev, ...profileUpdates }))]. *)
Definition handleLogin (name email : string) (p : LoginView.Profile) (st : AppState)
    : AppState :=
  mkApp (Settings.mkUser name email true) (currentView st)
        (mkSettings (language (settings st)) (LoginView.profileSyllabus p)
                    (LoginView.profileUserLevel p) (LoginView.profileCountry p)
                    (LoginView.profileProvince p))
        (isAdminMode st) (loginForm st).

(** [handleLogout]; the login form is mounted anew. *)
Definition handleLogout (st : AppState) : AppState :=
  mkApp (Settings.mkUser "" "" false) (currentView st) (settings st) false
        LoginView.initial.

Definition setCurrentView (v : ViewState) (st : AppState) : AppState :=
  mkApp (user st) v (settings st) (isAdminMode st) (loginForm st).

Definition setSettings (s : StudySettings) (st : AppState) : AppState :=
  mkApp (user st) (currentView st) s (isAdminMode st) (loginForm st).

Definition setIsAdminMode (b : bool) (st : AppState) : AppState :=
  mkApp (user st) (currentView st) (settings st) b (loginForm st).

(** One field of the settings form changes:
    [onUpdate({...settings, field: value})]. *)
Inductive Change :=
| SetLanguage (l : Chat.Language)
| SetCountry (s : string)
| SetProvince (s : string)
| SetSyllabus (s : string)
| SetUserLevel (s : string).

Definition onUpdate (c : Change) (s : StudySettings) : StudySettings :=
  match c with
  | SetLanguage l => mkSettings l (syllabus s) (userLevel s) (country s) (province s)
  | SetCountry x => mkSettings (language s) (syllabus s) (userLevel s) x (province s)
  | SetProvince x => mkSettings (language s) (syllabus s) (userLevel s) (country s) x
  | SetSyllabus x => mkSettings (language s) x (userLevel s) (country s) (province s)
  | SetUserLevel x => mkSettings (language s) (syllabus s) x (country s) (province s)
  end.

Inductive Event :=
| Form (e : LoginView.Event)
| Logout
| OpenSettings
| Navigate (v : ViewState)
| Back
| Update (c : Change)
| ClearHistory
| OwnerSwitch (typed : option string).

Definition isSettingsView (v : ViewState) : bool :=
  match v with SETTINGS => true | _ => false end.

(** The views the bottom bar leads to, and the four cards of the home
    view. *)
Definition navigable (from to : ViewState) : bool :=
  match to with
  | HOME | PLANNER | FLASHCARDS | QUIZ | CONTRIBUTE => true
  | CHAT | LIBRARY | WHITEBOARD => match from with HOME => true | _ => false end
  | SETTINGS => false
  end.

Fixpoint applyOutcomes (os : list LoginView.Outcome) (st : AppState) : AppState :=
  match os with
  | [] => st
  | LoginView.OnLogin n e p :: rest => applyOutcomes rest (handleLogin n e p st)
  | LoginView.Alert _ :: rest => applyOutcomes rest st
  end.

(** What an event does, given what [App] renders: the login form alone when
    nobody is logged in; the settings view alone when it is the current
    view, with the owner switch only for the owner's email; otherwise the
    header, the current view and the bottom bar. *)
Definition step (e : Event) (st : AppState) : AppState :=
  if negb (Settings.isLoggedIn (user st)) then
    match e with
    | Form fe =>
        let '(form, outcomes) := LoginView.act fe (loginForm st) in
        applyOutcomes outcomes
          (mkApp (user st) (currentView st) (settings st) (isAdminMode st) form)
    | _ => st
    end
  else if isSettingsView (currentView st) then
    match e with
    | Back => setCurrentView HOME st
    | Update c => setSettings (onUpdate c (settings st)) st
    | ClearHistory => st
    | OwnerSwitch typed =>
        if Settings.ownerSwitchRendered (user st) then
          setIsAdminMode (fst (Settings.handleAdminToggle typed (isAdminMode st))) st
        else st
    | _ => st
    end
  else
    match e with
    | Logout => handleLogout st
    | OpenSettings => setCurrentView SETTINGS st
    | Navigate v => if navigable (currentView st) v then setCurrentView v st else st
    | _ => st
    end.

Definition run (es : list Event) (st : AppState) : AppState :=
  foldl (fun s e => step e s) st es.

Definition typesSecret (e : Event) : bool :=
  match e with
  | OwnerSwitch (Some pwd) => String.eqb pwd Settings.ownerPassword
  | _ => false
  end.

(** What [App] keeps. *)
Definition sound (st : AppState) : bool :=
  LoginView.wellFormed (loginForm st)
  && (if isAdminMode st
      then Settings.isLoggedIn (user st)
           && String.eqb (Settings.email (user st)) Settings.ownerEmail
      else true)
  && (if Settings.isLoggedIn (user st)
      then LoginView.nonEmpty (Settings.name (user st))
           && LoginView.nonEmpty (Settings.email (user st))
      else true).

(** The events of a learner who signs up, looks around and logs out. *)
Definition visit : list Event :=
  [ Form (LoginView.TypeName "Ada"); Form (LoginView.TypeEmail "ada@example.com");
    Form LoginView.ClickNext;
    Form (LoginView.TypeCountry "Pakistan"); Form (LoginView.TypeProvince "Punjab");
    Form (LoginView.TypeSyllabus "Punjab Textbook Board");
    Form (LoginView.SelectGrade "Class 10"); Form LoginView.ClickFinish;
    Navigate QUIZ; OpenSettings; Update (SetLanguage Chat.URDU);
    OwnerSwitch (Some "letmein"); Back; Navigate PLANNER; Logout ].

Definition isSessionEvent (e : Event) : bool :=
  match e with Form _ | Logout => true | _ => false end.

(** A learner has the quiz open, in Urdu; she logs out and the next learner
    signs up. *)
Definition afterAda : AppState :=
  mkApp (Settings.mkUser "Ada" "ada@example.com" true) QUIZ
        (mkSettings Chat.URDU "Punjab Textbook Board" "Class 10" "Pakistan" "Punjab")
        false LoginView.initial.

Definition nextLearner : list Event :=
  [ Logout; Form (LoginView.TypeName "Bo"); Form (LoginView.TypeEmail "bo@example.com");
    Form LoginView.ClickNext; Form (LoginView.TypeCountry "Peru");
    Form (LoginView.TypeProvince "Lima"); Form (LoginView.TypeSyllabus "National");
    Form (LoginView.SelectGrade "Class 9"); Form LoginView.ClickFinish ].

End App.

(** ** Notes: [ContributeView] *)

Module Notes.

Record StudyNote := mkNote {
  id : string;
  title : string;
  author : string;
  verified : bool;
  content : string;
  category : string;
  date : string
}.

(** The cells of the component; the two text cells the source calls [title]
    and [content] are [titleCell] and [contentCell] here. *)
Record NotesState := mkNotes {
  notes : list StudyNote;
  titleCell : string;
  contentCell : string;
  summarizeInput : string;
  summary : string;
  isSummarizing : bool;
  isEditing : option string
}.

Definition initial : NotesState := mkNotes [] "" "" "" "" false None.

Definition nonEmpty (s : string) : bool := negb (String.eqb s "").

(** [handleAdd]; [now] is the reading of [Date.now()], [today] the text of
    [new Date().toLocaleDateString()]. *)
Definition handleAdd (now : Z) (today : string) (st : NotesState) : NotesState :=
  if negb (nonEmpty (titleCell st)) || negb (nonEmpty (contentCell st)) then st
  else
    mkNotes
      (mkNote (toString now) (titleCell st) "You" false (contentCell st) "General" today
       :: notes st)
      "" "" (summarizeInput st) (summary st) (isSummarizing st) None.

(** [notes.filter(n => n.id !== id)]. *)
Definition without (i : string) (l : list StudyNote) : list StudyNote :=
  List.filter (fun n => negb (String.eqb (id n) i)) l.

Definition handleDelete (i : string) (st : NotesState) : NotesState :=
  mkNotes (without i (notes st)) (titleCell st) (contentCell st) (summarizeInput st)
          (summary st) (isSummarizing st) (isEditing st).

Definition handleEdit (note : StudyNote) (st : NotesState) : NotesState :=
  mkNotes (without (id note) (notes st)) (title note) (content note)
          (summarizeInput st) (summary st) (isSummarizing st) (Some (id note)).

(** [handleSummarize], given how [summarizeText] ends: it resolves from a
    response with the text [t] ([Some t]), or the call throws ([None]). *)
Definition handleSummarize (answer : option (option string)) (st : NotesState)
    : NotesState :=
  if negb (nonEmpty (summarizeInput st)) then st
  else
    mkNotes (notes st) (titleCell st) (contentCell st) (summarizeInput st)
            (match answer with
             | Some t => Service.summarizeText t
             | None => "Error summarizing text."
             end)
            false (isEditing st).

(** What the user can do with the notes. *)
Inductive Event :=
| TypeTitle (s : string)
| TypeContent (s : string)
| Save (now : Z) (today : string)
| Delete (k : nat)
| Edit (k : nat).

(** Delete and the pencil act on the [k]-th note shown; the pencil is only
    rendered in administrator mode. *)
Definition act (isAdminMode : bool) (e : Event) (st : NotesState) : NotesState :=
  match e with
  | TypeTitle s =>
      mkNotes (notes st) s (contentCell st) (summarizeInput st) (summary st)
              (isSummarizing st) (isEditing st)
  | TypeContent s =>
      mkNotes (notes st) (titleCell st) s (summarizeInput st) (summary st)
              (isSummarizing st) (isEditing st)
  | Save now today => handleAdd now today st
  | Delete k =>
      match notes st !! k with
      | Some n => handleDelete (id n) st
      | None => st
      end
  | Edit k =>
      if isAdminMode then
        match notes st !! k with
        | Some n => handleEdit n st
        | None => st
        end
      else st
  end.

Definition run (isAdminMode : bool) (es : list Event) (st : NotesState) : NotesState :=
  foldl (fun s e => act isAdminMode e s) st es.

(** A note as [handleAdd] writes it. *)
Definition ownNote (n : StudyNote) : bool :=
  nonEmpty (title n) && nonEmpty (content n) && String.eqb (author n) "You"
  && negb (verified n) && String.eqb (category n) "General".

Definition drafted (t c : string) (st : NotesState) : NotesState :=
  mkNotes (notes st) t c (summarizeInput st) (summary st) (isSummarizing st)
          (isEditing st).

End Notes.

(** * Properties *)

Module ListFacts.

(** [l.filter(p)] is the greatest sublist of [l] whose elements pass [p]: it
    keeps the order and the repetitions of [l], every element of it passes,
    and every sublist of [l] whose elements pass is a sublist of it. *)
Lemma filter_greatest_sublist {A} (p : A -> bool) (P : A -> Prop) (l : list A) :
  (forall x, p x = true <-> P x) ->
  sublist (List.filter p l) l /\
  Forall P (List.filter p l) /\
  (forall l', sublist l' l -> Forall P l' -> sublist l' (List.filter p l)).
Proof.
  intros HpP. split; [|split].
  - induction l as [|x l IH]; [constructor|].
    cbn [List.filter]. destruct (p x).
    + apply sublist_skip, IH.
    + apply sublist_cons, IH.
  - induction l as [|x l IH]; [constructor|].
    cbn [List.filter]. destruct (p x) eqn:Hx; [|exact IH].
    constructor; [apply HpP, Hx|exact IH].
  - intros l' Hsub. induction Hsub as [|x l1 l2 _ IH|x l1 l2 _ IH]; intros Hall.
    + constructor.
    + apply Forall_cons in Hall as (Hx & Hall). apply HpP in Hx.
      cbn [List.filter]. rewrite Hx. apply sublist_skip, IH, Hall.
    + cbn [List.filter]. destruct (p x).
      * apply sublist_cons, IH, Hall.
      * apply IH, Hall.
Qed.

End ListFacts.

Module PlannerFacts.
Import Planner.

Ltac timer_simpl :=
  cbn [timerSeconds isTimerRunning timerMode setIsTimerRunning
       setTimerSeconds setTimerMode andb negb fst snd app].

(** Decide every test of the goal, then close the branch. *)
Ltac timer_cases :=
  timer_simpl;
  repeat match goal with
    | |- context [if ?b then _ else _] => destruct b eqn:?; timer_simpl
    end;
  try reflexivity; try lia.

Lemma timerEffect_quiescent t :
  timerEffect (fst (timerEffect t)) = (fst (timerEffect t), []).
Proof.
  destruct t as [s r m]. unfold timerEffect; simpl.
  destruct r, (0 <? s) eqn:Hpos, (s =? 0) eqn:Hz; simpl;
    rewrite ?Hpos, ?Hz; reflexivity.
Qed.

Lemma settle_quiescent t : settle (fst (settle t)) = (fst (settle t), []).
Proof.
  unfold settle.
  pose proof (timerEffect_quiescent t) as Hq.
  destruct (timerEffect t) as [t1 o1]; simpl in Hq.
  repeat (rewrite Hq; simpl). reflexivity.
Qed.

Lemma planner_run_app es1 es2 t :
  run (es1 ++ es2) t =
  let '(t1, o1) := run es1 t in
  let '(t2, o2) := run es2 t1 in
  (t2, o1 ++ o2).
Proof.
  revert t. induction es1 as [|e es1 IH]; intros t; simpl.
  - destruct (run es2 t); reflexivity.
  - destruct (step e t) as [t1 o1].
    rewrite IH.
    destruct (run es1 t1) as [t2 o2].
    destruct (run es2 t2) as [t3 o3].
    rewrite app_assoc. reflexivity.
Qed.

(** One second of a running timer showing [n + 2]: no effect. *)
Lemma tick_above_one (n : nat) m :
  step Tick (mkTimer (Z.of_nat (S (S n))) true m) =
  (mkTimer (Z.of_nat (S n)) true m, []).
Proof.
  unfold step, handler, intervalCallback, intervalArmed, settle, timerEffect,
    setTimerSeconds; cbn [timerSeconds isTimerRunning timerMode andb].
  replace (Z.of_nat (S (S n)) - 1) with (Z.of_nat (S n)) by lia.
  assert (H2 : (0 <? Z.of_nat (S (S n))) = true) by (apply Z.ltb_lt; lia).
  assert (H1 : (0 <? Z.of_nat (S n)) = true) by (apply Z.ltb_lt; lia).
  rewrite H2. cbn [timerSeconds isTimerRunning timerMode andb].
  rewrite H1. cbn [timerSeconds isTimerRunning timerMode andb].
  rewrite H1. reflexivity.
Qed.

(** The second that takes the count from 1 to 0. *)
Lemma tick_at_one m :
  step Tick (mkTimer 1 true m) = (mkTimer 0 false m, notification m).
Proof. destruct m; reflexivity. Qed.

Lemma tick_stopped s m : step Tick (mkTimer s false m) = (mkTimer s false m, []).
Proof.
  unfold step, handler, intervalCallback, intervalArmed, settle, timerEffect.
  cbn [timerSeconds isTimerRunning timerMode andb].
  rewrite andb_false_r. cbn [timerSeconds isTimerRunning timerMode andb].
  rewrite andb_false_r. reflexivity.
Qed.

Lemma ticks_stopped k s m :
  run (replicate k Tick) (mkTimer s false m) = (mkTimer s false m, []).
Proof.
  induction k as [|k IH]; [reflexivity|].
  cbn [replicate run]. rewrite tick_stopped, IH. reflexivity.
Qed.

(** [k] seconds of a running timer that shows [n >= 1]. *)
Lemma countdown (k n : nat) m :
  run (replicate k Tick) (mkTimer (Z.of_nat (S n)) true m) =
  (mkTimer (Z.of_nat (S n - Nat.min k (S n))) (Nat.ltb k (S n)) m,
   if Nat.ltb k (S n) then [] else notification m).
Proof.
  revert n. induction k as [|k IH]; intros n.
  - cbn [replicate run]. rewrite Nat.min_0_l, Nat.sub_0_r. reflexivity.
  - cbn [replicate run].
    destruct n as [|n].
    + change (Z.of_nat 1) with 1. rewrite tick_at_one, ticks_stopped.
      destruct k; simpl; rewrite ?app_nil_r; reflexivity.
    + rewrite tick_above_one, IH.
      replace (Nat.ltb (S k) (S (S n))) with (Nat.ltb k (S n)) by reflexivity.
      replace (S (S n) - Nat.min (S k) (S (S n)))%nat
        with (S n - Nat.min k (S n))%nat by reflexivity.
      reflexivity.
Qed.

Lemma settled_settle t : settled (fst (settle t)) = true.
Proof.
  destruct t as [s r m]. unfold settled, settle, timerEffect; simpl.
  destruct r, (0 <? s) eqn:Hpos, (s =? 0) eqn:Hz; simpl;
    rewrite ?Hpos, ?Hz; simpl; rewrite ?Hz; try reflexivity; lia.
Qed.

Lemma settled_run es t : settled t = true -> settled (fst (run es t)) = true.
Proof.
  revert t. induction es as [|e es IH]; intros t Ht; [exact Ht|].
  cbn [run]. destruct (step e t) as [t1 o1] eqn:Hstep.
  specialize (IH t1). destruct (run es t1) as [t2 o2]. simpl in *.
  apply IH. unfold step in Hstep.
  pose proof (settled_settle (handler e t)) as Hs.
  rewrite Hstep in Hs. exact Hs.
Qed.

Lemma step_effects_settled e t :
  settled t = true ->
  snd (step e t) =
    match e with
    | Tick => if isTimerRunning t && (timerSeconds t =? 1)
              then notification (timerMode t) else []
    | _ => []
    end.
Proof.
  destruct t as [s r m]. unfold settled; simpl. intros Hset.
  destruct e, r;
    unfold step, handler, startTimer, intervalCallback, intervalArmed,
      settle, timerEffect;
    timer_simpl; destruct (0 <? s) eqn:Hpos; timer_cases.
Qed.

(** C6: Start Focus sets the count to 1500 seconds, running, in work mode;
    every second of a running timer with a positive count takes one off;
    after [k] seconds the count is [1500 - min k 1500], the timer runs
    exactly while [k < 1500], and the effects of the whole run are none
    before the 1500th second and one sound and one alert from then on;
    [startTimer] puts [minutes * 60] into the count from any state, running
    or not, and the two buttons call it with 25 and with 5 minutes. *)
Theorem focus_timer_counts_down_and_notifies_once
    (t : Timer) (k : nat) (p : positive) (m : TimerMode) (minutes : Z) :
  step StartFocus t = (mkTimer 1500 true work, []) /\
  step Tick (mkTimer (Z.pos p) true m) =
    (mkTimer (Z.pos p - 1) (negb (Z.pos p =? 1)) m,
     if Z.pos p =? 1 then notification m else []) /\
  run (StartFocus :: replicate k Tick) t =
    (mkTimer (1500 - Z.of_nat (Nat.min k 1500)) (Nat.ltb k 1500) work,
     if Nat.ltb k 1500 then []
     else [AudioPlay beepUrl; Alert "Focus session complete! Take a break."]) /\
  startTimer minutes m t = mkTimer (minutes * 60) true m /\
  step StartBreak t = (mkTimer 300 true break, []).
Proof.
  split; [reflexivity|]. split; [|split; [|split; reflexivity]].
  - destruct (Pos.eq_dec p 1%positive) as [->|Hne].
    + apply tick_at_one.
    + destruct (Pos.to_nat p) as [|[|n]] eqn:Hp; try lia.
      replace (Z.pos p) with (Z.of_nat (S (S n))) by lia.
      rewrite tick_above_one.
      replace (Z.of_nat (S (S n)) =? 1) with false
        by (symmetry; apply Z.eqb_neq; lia).
      simpl negb. f_equal. f_equal. lia.
  - cbn [run].
    replace (step StartFocus t) with (mkTimer (Z.of_nat 1500) true work, @nil Effect)
      by reflexivity.
    rewrite (countdown k 1499 work). simpl app.
    f_equal. f_equal. lia.
Qed.

(** C10: Stop on a running timer with a positive count clears the running
    flag and nothing else, with no sound and no alert, and the seconds that
    pass afterwards change nothing; in every state the component can reach,
    an event has effects only when it is a second passing on a running
    timer that shows 1, and then they are the one notification. *)
Theorem stop_is_silent_and_only_the_last_second_notifies
    (p : positive) (m : TimerMode) (k : nat) (es : list Event) (e : Event) :
  step Stop (mkTimer (Z.pos p) true m) = (mkTimer (Z.pos p) false m, []) /\
  run (Stop :: replicate k Tick) (mkTimer (Z.pos p) true m) =
    (mkTimer (Z.pos p) false m, []) /\
  snd (step e (fst (run es initial))) =
    match e with
    | Tick =>
        if isTimerRunning (fst (run es initial))
           && (timerSeconds (fst (run es initial)) =? 1)
        then notification (timerMode (fst (run es initial)))
        else []
    | _ => []
    end.
Proof.
  assert (Hstop : step Stop (mkTimer (Z.pos p) true m) = (mkTimer (Z.pos p) false m, []))
    by reflexivity.
  split; [exact Hstop|]. split.
  - cbn [run]. rewrite Hstop, ticks_stopped. reflexivity.
  - apply step_effects_settled, settled_run. reflexivity.
Qed.

End PlannerFacts.

Module QuizFacts.
Import Quiz.

Lemma quiz_run_app es1 es2 st :
  run (es1 ++ es2) st =
  let '(st1, b1) := run es1 st in
  let '(st2, b2) := run es2 st1 in
  (st2, b1 || b2).
Proof.
  revert st. induction es1 as [|e es1 IH]; intros st; cbn [app run].
  - destruct (run es2 st); reflexivity.
  - destruct (step e st) as [st1 c]. rewrite IH.
    destruct (run es1 st1) as [st2 b2]. destruct (run es2 st2) as [st3 b3].
    rewrite orb_assoc. reflexivity.
Qed.

(** Clicks on options of an answered question are lost. *)
Lemma run_answers_when_answered more qs i sc a sr ld :
  run (map Answer more) (mkQuiz qs i sc (Some a) sr ld) =
  (mkQuiz qs i sc (Some a) sr ld, false).
Proof.
  induction more as [|x more IH]; [reflexivity|].
  cbn [map run step]. unfold handleAnswer at 1; cbn [selectedAnswer].
  rewrite IH. reflexivity.
Qed.

Lemma at_index_middle {A} (pre : list A) (x : A) (rest : list A) :
  at_index (pre ++ x :: rest) (len pre) = Some x.
Proof.
  unfold at_index, len.
  replace (Z.of_nat (length pre) <? 0) with false by (symmetry; apply Z.ltb_ge; lia).
  rewrite Nat2Z.id. apply list_lookup_middle. reflexivity.
Qed.

Lemma len_app_cons {A} (pre : list A) (x : A) (rest : list A) :
  len (pre ++ x :: rest) = len pre + 1 + len rest.
Proof. unfold len. rewrite length_app; cbn [length]. lia. Qed.

(** The clicks of one question that is on screen and not answered yet. *)
Lemma run_clicks pre q rest sc ld (a : Z * list Z) :
  run (clicks a) (mkQuiz (pre ++ q :: rest) (len pre) sc None false ld) =
  (nextQuestion
     (mkQuiz (pre ++ q :: rest) (len pre)
        (sc + (if fst a =? correctAnswerIndex q then 1 else 0))
        (Some (fst a)) false ld),
   false).
Proof.
  unfold clicks. cbn [run step].
  unfold handleAnswer; cbn [selectedAnswer questions currentIndex score showResult isLoading].
  rewrite at_index_middle.
  change (Answer <$> a.2) with (map Answer (snd a)).
  destruct (fst a =? correctAnswerIndex q);
    cbn [selectedAnswer questions currentIndex score showResult isLoading];
    rewrite quiz_run_app, run_answers_when_answered; cbn [run step threw orb];
    rewrite ?Z.add_0_r; reflexivity.
Qed.

(** From question [len pre] on, with every remaining question answered. *)
Lemma run_fullRun_from rest : forall pre q sc ld attempts,
  length attempts = S (length rest) ->
  exists last_selected,
    run (fullRun attempts) (mkQuiz (pre ++ q :: rest) (len pre) sc None false ld) =
    (mkQuiz (pre ++ q :: rest) (len (pre ++ q :: rest) - 1)
            (sc + firstSelectionsCorrect (q :: rest) attempts)
            (Some last_selected) true ld,
     false).
Proof.
  induction rest as [|q' rest IH]; intros pre q sc ld attempts Hlen.
  - destruct attempts as [|a [|? ?]]; try discriminate Hlen.
    exists (fst a). unfold fullRun; cbn [map concat]. rewrite app_nil_r.
    rewrite run_clicks. unfold nextQuestion; cbn [questions currentIndex].
    rewrite len_app_cons. change (len (@nil QuizQuestion)) with 0.
    replace (len pre <? len pre + 1 + 0 - 1) with false
      by (symmetry; apply Z.ltb_ge; lia).
    cbn [questions currentIndex score selectedAnswer showResult isLoading
         firstSelectionsCorrect].
    repeat f_equal; lia.
  - destruct attempts as [|a attempts]; [discriminate Hlen|].
    injection Hlen as Hlen.
    unfold fullRun; cbn [map concat]. fold (fullRun attempts).
    rewrite quiz_run_app, run_clicks. unfold nextQuestion; cbn [questions currentIndex].
    rewrite len_app_cons.
    replace (len pre <? len pre + 1 + len (q' :: rest) - 1) with true
      by (symmetry; apply Z.ltb_lt; unfold len; cbn [length]; lia).
    cbn [questions currentIndex score selectedAnswer showResult isLoading].
    destruct (IH (pre ++ [q]) q'
                (sc + (if fst a =? correctAnswerIndex q then 1 else 0)) ld attempts Hlen)
      as [lastsel Hrun].
    exists lastsel.
    replace (len pre + 1) with (len (pre ++ [q]))
      by (unfold len; rewrite length_app; cbn [length]; lia).
    replace (pre ++ q :: q' :: rest) with ((pre ++ [q]) ++ q' :: rest)
      by (rewrite <- app_assoc; reflexivity).
    rewrite Hrun. cbn [orb firstSelectionsCorrect].
    f_equal. f_equal.
    + unfold len. rewrite !length_app. cbn [length]. lia.
    + rewrite Z.add_assoc. reflexivity.
Qed.

(** C2: after a full run over a non-empty quiz (for each question a first
    click on an option, any number of further clicks on options, then
    Next / Finish) no handler threw, the score is the number of questions
    whose first selection is the correct option, and the component shows
    the result screen with that score over the number of questions. *)
Theorem full_run_score_counts_first_selections
    (q : QuizQuestion) (rest : list QuizQuestion)
    (attempts : list (Z * list Z)) (st0 : QuizState)
    (Hlen : length attempts = length (q :: rest)) :
  let final := run (fullRun attempts) (handleStart_loaded (q :: rest) st0) in
  snd final = false /\
  score (fst final) = firstSelectionsCorrect (q :: rest) attempts /\
  showResult (fst final) = true /\
  render (fst final) =
    Some (ResultScreen (firstSelectionsCorrect (q :: rest) attempts)
                       (len (q :: rest))).
Proof.
  cbn zeta. unfold handleStart_loaded.
  destruct (run_fullRun_from rest [] q 0 false attempts Hlen) as [lastsel Hrun].
  change (len (@nil QuizQuestion)) with 0 in Hrun.
  change ([] ++ q :: rest) with (q :: rest) in Hrun.
  rewrite Hrun. cbn [fst snd score showResult].
  rewrite Z.add_0_l. split; [reflexivity|]. split; [reflexivity|].
  split; [reflexivity|].
  unfold render; cbn [questions showResult score]. rewrite orb_true_r. reflexivity.
Qed.

Lemma full_run_score_counts_first_selections_witness :
  length [(1, [0; 2]); (1, [0]); (2, [])] = length sampleQuiz /\
  render (fst (run (fullRun [(1, [0; 2]); (1, [0]); (2, [])])
                 (handleStart_loaded sampleQuiz initial))) =
    Some (ResultScreen 2 3).
Proof.
  split; [reflexivity|].
  apply (full_run_score_counts_first_selections
           (mkQuestion "2 + 2" ["3"; "4"; "5"] 1 "sum")
           [ mkQuestion "3 * 3" ["9"; "6"] 0 "product";
             mkQuestion "7 - 2" ["4"; "6"; "5"] 2 "difference" ]
           [(1, [0; 2]); (1, [0]); (2, [])] initial).
  reflexivity.
Defined.

(** C3: [handleAnswer] on a state whose [selectedAnswer] is set returns the
    state as it is; after any [handleAnswer] the selection is the earlier
    one when there was one and the clicked index otherwise, and a second
    [handleAnswer] changes neither [score] nor [selectedAnswer]. *)
Theorem handleAnswer_after_selection_is_identity
    (qs : list QuizQuestion) (i sc a : Z) (sr ld : bool)
    (st : QuizState) (first again : Z) :
  handleAnswer again (mkQuiz qs i sc (Some a) sr ld) =
    (mkQuiz qs i sc (Some a) sr ld, Normal) /\
  selectedAnswer (fst (handleAnswer first st)) =
    Some (default first (selectedAnswer st)) /\
  handleAnswer again (fst (handleAnswer first st)) =
    (fst (handleAnswer first st), Normal) /\
  score (fst (handleAnswer again (fst (handleAnswer first st)))) =
    score (fst (handleAnswer first st)) /\
  selectedAnswer (fst (handleAnswer again (fst (handleAnswer first st)))) =
    selectedAnswer (fst (handleAnswer first st)).
Proof.
  split; [reflexivity|].
  assert (Hsel : selectedAnswer (fst (handleAnswer first st)) =
                 Some (default first (selectedAnswer st))).
  { unfold handleAnswer. destruct st as [qs' i' sc' [a'|] sr' ld']; cbn; [reflexivity|].
    destruct (at_index qs' i') as [q|]; [|reflexivity].
    destruct (first =? correctAnswerIndex q); reflexivity. }
  assert (Hid : handleAnswer again (fst (handleAnswer first st)) =
                (fst (handleAnswer first st), Normal)).
  { unfold handleAnswer at 1. rewrite Hsel. reflexivity. }
  rewrite Hid. repeat split; assumption.
Qed.

End QuizFacts.

Module FlashcardsFacts.
Import Flashcards.

Lemma imageEffect_frame st :
  heap (imageEffect st) = heap st /\
  cards (imageEffect st) = cards st /\
  currentIndex (imageEffect st) = currentIndex st.
Proof.
  unfold imageEffect.
  destruct (0 <? len (cards st)); [|auto].
  destruct (cardAt (heap st) (cards st) (currentIndex st)) as [card|]; [|auto].
  destruct (wantsImage card); auto.
Qed.

Lemma goTo_frame i st :
  heap (goTo i st) = heap st /\ cards (goTo i st) = cards st /\
  currentIndex (goTo i st) = i.
Proof.
  unfold goTo. destruct (i =? currentIndex st); [auto|].
  destruct (imageEffect_frame
              (mkFlash (heap st) (cards st) i false (isLoading st) (pending st)))
    as (Hh & Hc & Hi).
  rewrite Hh, Hc, Hi. auto.
Qed.

(** The effect asks for an illustration exactly when there are cards, the
    current index holds a card, that card has no image and it has a
    keyword; the request is for that card's keyword. *)
Lemma imageEffect_pending st :
  pending (imageEffect st) =
  pending st ++
    match cardAt (heap st) (cards st) (currentIndex st) with
    | Some card =>
        if (0 <? len (cards st)) && negb (truthy (generatedImage card))
           && truthy (imageKeyword card)
        then [mkPending (cards st) (currentIndex st) (default "" (imageKeyword card))]
        else []
    | None => []
    end.
Proof.
  unfold imageEffect, wantsImage.
  destruct (cardAt (heap st) (cards st) (currentIndex st)) as [card|];
    destruct (0 <? len (cards st)); cbn [andb pending];
    rewrite ?app_nil_r; try reflexivity.
  destruct (negb (truthy (generatedImage card)) && truthy (imageKeyword card));
    cbn [pending]; rewrite ?app_nil_r; reflexivity.
Qed.

(** An answer changes at most one card object, the one the waiting closure
    finds at its index, and of that object only the image. *)
Lemma resolve_heap k img st :
  heap (resolve k img st) = heap st \/
  exists p a,
    pending st !! k = Some p /\
    at_index (seenCards p) (seenIndex p) = Some a /\
    heap (resolve k img st) = alter (setGeneratedImage img) a (heap st).
Proof.
  unfold resolve.
  destruct (pending st !! k) as [p|] eqn:Hp; [|left; reflexivity].
  destruct (truthy img); [|left; reflexivity].
  destruct (at_index (seenCards p) (seenIndex p)) as [a|] eqn:Ha; [|left; reflexivity].
  right. exists p, a. split; [reflexivity|]. split; [exact Ha|].
  apply imageEffect_frame.
Qed.

Lemma len_pos_ne {A} (xs : list A) : xs <> [] -> 0 < len xs.
Proof. destruct xs; [congruence|]. unfold len; cbn [length]. lia. Qed.

Lemma step_currentIndex_nonneg e st :
  0 <= currentIndex st -> 0 <= currentIndex (step e st).
Proof.
  intros Hidx. destruct e as [cs| | | |k img]; cbn [step].
  - unfold handleGenerate_loaded.
    rewrite (proj2 (proj2 (imageEffect_frame _))). cbn. lia.
  - unfold handleNext, nextIndex, js_rem.
    destruct (len (cards st) =? 0) eqn:Hz; cbn; [exact Hidx|].
    rewrite (proj2 (proj2 (goTo_frame _ st))).
    apply Z.rem_nonneg; [|lia]. unfold len in *. lia.
  - unfold handlePrev, prevIndex, js_rem.
    destruct (len (cards st) =? 0) eqn:Hz; cbn; [exact Hidx|].
    rewrite (proj2 (proj2 (goTo_frame _ st))).
    apply Z.rem_nonneg; unfold len in *; lia.
  - destruct (0 <? len (cards st)); exact Hidx.
  - unfold resolve.
    destruct (pending st !! k) as [p|]; [|exact Hidx].
    destruct (truthy img); [|exact Hidx].
    destruct (at_index (seenCards p) (seenIndex p)); [|exact Hidx].
    rewrite (proj2 (proj2 (imageEffect_frame _))). exact Hidx.
Qed.

(** The index never goes below zero, whatever happens. *)
Lemma run_currentIndex_nonneg es : forall st,
  0 <= currentIndex st -> 0 <= currentIndex (run es st).
Proof.
  unfold run. induction es as [|e es IH]; intros st Hidx; cbn [foldl]; [exact Hidx|].
  apply IH, step_currentIndex_nonneg, Hidx.
Qed.

(** C8: with a non-empty card list and a current index that is not
    negative, Next and Previous both return, keep the card list, and leave
    an index in [0, N); from N - 1 Next gives 0, from 0 Previous gives
    N - 1. *)
Theorem next_and_prev_wrap_within_range (st : FlashState)
    (Hcards : cards st <> []) (Hidx : 0 <= currentIndex st) :
  exists n p,
    handleNext st = Some n /\ handlePrev st = Some p /\
    cards n = cards st /\ cards p = cards st /\
    0 <= currentIndex n < len (cards st) /\
    0 <= currentIndex p < len (cards st) /\
    (currentIndex st = len (cards st) - 1 -> currentIndex n = 0) /\
    (currentIndex st = 0 -> currentIndex p = len (cards st) - 1).
Proof.
  pose proof (len_pos_ne _ Hcards) as HN.
  assert (Hz : (len (cards st) =? 0) = false) by (apply Z.eqb_neq; lia).
  exists (goTo (Z.rem (currentIndex st + 1) (len (cards st))) st),
         (goTo (Z.rem (currentIndex st - 1 + len (cards st)) (len (cards st))) st).
  unfold handleNext, handlePrev, nextIndex, prevIndex, js_rem. rewrite Hz.
  split; [reflexivity|]. split; [reflexivity|].
  rewrite !(proj2 (proj2 (goTo_frame _ st))), !(proj1 (proj2 (goTo_frame _ st))).
  split; [reflexivity|]. split; [reflexivity|].
  split; [apply Z.rem_bound_pos; lia|].
  split; [apply Z.rem_bound_pos; lia|].
  split; intros Heq; rewrite Heq.
  - replace (len (cards st) - 1 + 1) with (len (cards st)) by lia.
    apply Z.rem_same. lia.
  - replace (0 - 1 + len (cards st)) with (len (cards st) - 1) by lia.
    apply Z.rem_small. lia.
Qed.

Lemma next_and_prev_wrap_within_range_witness :
  cards onLastOfThree <> [] /\ 0 <= currentIndex onLastOfThree /\
  exists n p,
    handleNext onLastOfThree = Some n /\ handlePrev onLastOfThree = Some p /\
    cards n = cards onLastOfThree /\ cards p = cards onLastOfThree /\
    0 <= currentIndex n < len (cards onLastOfThree) /\
    0 <= currentIndex p < len (cards onLastOfThree) /\
    (currentIndex onLastOfThree = len (cards onLastOfThree) - 1 -> currentIndex n = 0) /\
    (currentIndex onLastOfThree = 0 -> currentIndex p = len (cards onLastOfThree) - 1).
Proof.
  split; [discriminate|]. split; [discriminate|].
  apply (next_and_prev_wrap_within_range onLastOfThree); discriminate.
Defined.

(** C9 fails on the code: the guard [!card.generatedImage] is tested when
    the illustration is requested and not again when it arrives.  After
    [browseAhead] the second card holds the image that arrived for it and
    a second request for the same card is still pending; when that one
    answers, the stored image is replaced. *)
Theorem generatedImage_replaced_by_second_answer :
  imageOf (run browseAhead initial) 1 = Some "data:image/png;base64,c2Vjb25k" /\
  pending (run browseAhead initial) = [mkPending [0%nat; 1%nat] 1 "pore"] /\
  imageOf (step lateAnswer (run browseAhead initial)) 1 =
    Some "data:image/png;base64,dGhpcmQ=".
Proof. vm_compute. repeat split. Qed.

End FlashcardsFacts.

Module ChatFacts.
Import Chat.

Lemma append_empty_r (a : string) : a +:+ "" = a.
Proof.
  induction a as [|c a IH]; [reflexivity|].
  change (String c (a +:+ "") = String c a). f_equal. exact IH.
Qed.

Lemma append_assoc (a b c : string) : (a +:+ b) +:+ c = a +:+ (b +:+ c).
Proof.
  induction a as [|x a IH]; [reflexivity|].
  change (String x ((a +:+ b) +:+ c) = String x (a +:+ (b +:+ c))). f_equal. exact IH.
Qed.

Lemma truthy_false_default (c : option string) : truthy c = false -> default "" c = "".
Proof.
  destruct c as [s|]; cbn; [|reflexivity].
  destruct (String.eqb_spec s ""); [auto|discriminate].
Qed.

Section Loop.
Context {S : Type} (f : string -> S -> S).

(** The loop takes the chunks one after the other: a stream cut in two is
    the loop on the first part followed by the loop on the second. *)
Lemma streamLoop_app pre : forall post ft s,
  streamLoop f (pre ++ post) ft s =
  streamLoop f post (fst (streamLoop f pre ft s)) (snd (streamLoop f pre ft s)).
Proof.
  induction pre as [|c pre IH]; intros post ft s; cbn [app streamLoop fst snd];
    [reflexivity|].
  destruct (truthy c); apply IH.
Qed.

(** A chunk without text, or with the empty text, is passed over and the
    loop goes on with the chunks after it. *)
Lemma streamLoop_skip pre c post ft s :
  truthy c = false ->
  streamLoop f (pre ++ c :: post) ft s = streamLoop f (pre ++ post) ft s.
Proof.
  intros Hc. rewrite !streamLoop_app. cbn [streamLoop]. rewrite Hc. reflexivity.
Qed.
End Loop.

Lemma joined_cons c cs :
  joined (c :: cs) = if truthy c then default "" c +:+ joined cs else joined cs.
Proof. unfold joined. cbn [List.filter]. destruct (truthy c); reflexivity. Qed.

Lemma joined_app pre post : joined (pre ++ post) = joined pre +:+ joined post.
Proof.
  induction pre as [|c pre IH]; [reflexivity|].
  cbn [app]. rewrite !joined_cons, IH.
  destruct (truthy c); [rewrite append_assoc|]; reflexivity.
Qed.

Lemma setText_last aid newText before oldText ts :
  setText aid newText (before ++ [mkMessage aid model oldText ts]) =
  setText aid newText before ++ [mkMessage aid model newText ts].
Proof.
  unfold setText. rewrite List.map_app. cbn [map id role timestamp].
  rewrite String.eqb_refl. reflexivity.
Qed.

Lemma setText_length aid newText prev : length (setText aid newText prev) = length prev.
Proof. unfold setText. apply List.length_map. Qed.

Lemma onChunk_placeholderShows clock n chunk t :
  placeholderShows clock n t -> placeholderShows clock n (onChunk (aiMsgId clock) chunk t).
Proof.
  intros (before & Hlen & Hshown).
  exists (setText (aiMsgId clock) (buffer t +:+ chunk) before).
  split; [rewrite setText_length; exact Hlen|].
  unfold onChunk; cbn [shown buffer]. rewrite Hshown. apply setText_last.
Qed.

(** The loop of the service run on the callback of [handleSend]: the
    service's text and the callback's buffer both grow by the joined
    fragments, and the placeholder shows the buffer. *)
Lemma streamLoop_onChunk clock n cs : forall ft t,
  placeholderShows clock n t ->
  fst (streamLoop (onChunk (aiMsgId clock)) cs ft t) = ft +:+ joined cs /\
  buffer (snd (streamLoop (onChunk (aiMsgId clock)) cs ft t)) = buffer t +:+ joined cs /\
  placeholderShows clock n (snd (streamLoop (onChunk (aiMsgId clock)) cs ft t)).
Proof.
  induction cs as [|c cs IH]; intros ft t Ht; cbn [streamLoop].
  - cbn [fst snd]. change (joined []) with "". rewrite !append_empty_r. auto.
  - rewrite joined_cons. destruct (truthy c) eqn:Hc.
    + destruct (IH (ft +:+ default "" c) (onChunk (aiMsgId clock) (default "" c) t))
        as (Hft & Hbuf & Hshow).
      { apply onChunk_placeholderShows, Ht. }
      split; [rewrite Hft; apply append_assoc|].
      split; [|exact Hshow].
      rewrite Hbuf. unfold onChunk; cbn [buffer]. apply append_assoc.
    + apply IH, Ht.
Qed.

Lemma opened_placeholderShows clock st :
  placeholderShows clock (S (length (messages st))) (mkTurn "" (opened clock st)).
Proof.
  unfold placeholderShows, opened, placeholder; cbn [shown buffer].
  eexists. split; [|reflexivity].
  rewrite length_app; cbn [length]. lia.
Qed.

Lemma last_placeholderShows clock n t :
  placeholderShows clock n t ->
  last (shown t) = Some (mkMessage (aiMsgId clock) model (buffer t) (aiStamp clock)) /\
  length (shown t) = S n.
Proof.
  intros (before & Hlen & Hshown). rewrite Hshown, last_snoc, length_app.
  cbn [length]. split; [reflexivity|lia].
Qed.

Lemma handleSend_skip clock hasSpeech lang pre c post fin st :
  truthy c = false ->
  handleSend clock hasSpeech lang (mkStream (pre ++ c :: post) fin) st =
  handleSend clock hasSpeech lang (mkStream (pre ++ post) fin) st.
Proof.
  intros Hc. unfold handleSend, streamChatResponse; cbn [chunks ending].
  rewrite (streamLoop_skip _ pre c post _ _ Hc). reflexivity.
Qed.

(** The turn after the loop has taken the chunks [cs]. *)
Lemma turn_after clock cs st :
  let t := snd (streamLoop (onChunk (aiMsgId clock)) cs "" (mkTurn "" (opened clock st))) in
  buffer t = joined cs /\
  last (shown t) = Some (mkMessage (aiMsgId clock) model (joined cs) (aiStamp clock)) /\
  length (shown t) = S (S (length (messages st))) /\
  exists before,
    length before = S (length (messages st)) /\
    shown t = before ++ [mkMessage (aiMsgId clock) model (joined cs) (aiStamp clock)].
Proof.
  cbn zeta.
  destruct (streamLoop_onChunk clock _ cs "" _ (opened_placeholderShows clock st))
    as (_ & Hbuf & Hshow).
  change ("" +:+ joined cs) with (joined cs) in Hbuf.
  destruct (last_placeholderShows _ _ _ Hshow) as (Hlast & Hlen).
  rewrite Hbuf in Hlast. destruct Hshow as (before & Hb & Hs). rewrite Hbuf in Hs.
  repeat split; try assumption. exists before. auto.
Qed.

(** C1: when a non-blank input is sent and the stream is exhausted, the
    messages are the ones shown when the last chunk had arrived, two more
    than before the turn, and the last of them is the placeholder with the
    joined non-empty fragments as its text; at every moment of the
    streaming the placeholder shows the joined fragments that have
    arrived; a callback writes the new buffer over whatever text the
    placeholder had; a chunk without text or with the empty text changes
    nothing, and the chunks after it are taken as if it were not there. *)
Theorem completed_turn_shows_joined_fragments
    (clock : Clock) (hasSpeech : bool) (lang : Language)
    (cs pre post : list (option string)) (st : ChatState)
    (b chunk oldText : string) (before : list Message)
    (Hsent : isBlank (input st) = false) :
  let done := fst (handleSend clock hasSpeech lang (mkStream cs Exhausted) st) in
  let shows fragments :=
    Some (mkMessage (aiMsgId clock) model fragments (aiStamp clock)) in
  messages done = messages (streaming clock cs st) /\
  length (messages done) = S (S (length (messages st))) /\
  last (messages done) = shows (joined cs) /\
  last (messages (streaming clock pre st)) = shows (joined pre) /\
  last (shown (onChunk (aiMsgId clock) chunk
                 (mkTurn b (before ++ [mkMessage (aiMsgId clock) model oldText
                                                 (aiStamp clock)])))) =
    shows (b +:+ chunk) /\
  handleSend clock hasSpeech lang (mkStream (pre ++ None :: post) Exhausted) st =
    handleSend clock hasSpeech lang (mkStream (pre ++ post) Exhausted) st /\
  handleSend clock hasSpeech lang (mkStream (pre ++ Some "" :: post) Exhausted) st =
    handleSend clock hasSpeech lang (mkStream (pre ++ post) Exhausted) st /\
  joined (pre ++ post) = joined pre +:+ joined post.
Proof.
  cbn zeta.
  assert (Hdone : messages (fst (handleSend clock hasSpeech lang (mkStream cs Exhausted) st))
                  = messages (streaming clock cs st)).
  { unfold handleSend, streamChatResponse, streaming; cbn [chunks ending].
    rewrite Hsent.
    destruct (streamLoop (onChunk (aiMsgId clock)) cs "" (mkTurn "" (opened clock st)));
      reflexivity. }
  rewrite Hdone. unfold streaming; cbn [messages].
  destruct (turn_after clock cs st) as (_ & Hlast & Hlen & _).
  destruct (turn_after clock pre st) as (_ & Hlastpre & _).
  split; [reflexivity|]. split; [exact Hlen|]. split; [exact Hlast|].
  split; [exact Hlastpre|].
  split.
  { unfold onChunk; cbn [shown buffer]. rewrite setText_last. apply last_snoc. }
  split; [apply handleSend_skip; reflexivity|].
  split; [apply handleSend_skip; reflexivity|].
  apply joined_app.
Qed.

Lemma completed_turn_shows_joined_fragments_witness :
  isBlank (input greeting) = false /\
  last (messages (fst (handleSend sampleClock false ENGLISH
                         (mkStream sampleChunks Exhausted) greeting))) =
    Some (mkMessage "1762000003001" model "Osmosis is the diffusion of water."
                    1762000003001).
Proof.
  split; [reflexivity|].
  exact (proj1 (proj2 (proj2
           (completed_turn_shows_joined_fragments sampleClock false ENGLISH
              sampleChunks [] [] greeting "" "" "" [] eq_refl)))).
Defined.

(** C7: when a non-blank input is sent and the provider call raises after
    any chunks, the last message is the placeholder and its text is the
    apology, with nothing of the fragments that had arrived, no message is
    added or lost, and nothing is spoken; whether the stream is exhausted
    or raises, the typing flag, set while the turn streams, is cleared
    when the handler ends. *)
Theorem failed_turn_shows_apology_and_typing_is_cleared
    (clock : Clock) (hasSpeech : bool) (lang : Language)
    (cs : list (option string)) (fin : StreamEnd) (st : ChatState)
    (Hsent : isBlank (input st) = false) :
  let failed := handleSend clock hasSpeech lang (mkStream cs Raised) st in
  last (messages (fst failed)) =
    Some (mkMessage (aiMsgId clock) model apology (aiStamp clock)) /\
  length (messages (fst failed)) = S (S (length (messages st))) /\
  snd failed = [] /\
  isTyping (streaming clock cs st) = true /\
  isTyping (fst (handleSend clock hasSpeech lang (mkStream cs fin) st)) = false.
Proof.
  cbn zeta. unfold handleSend, streamChatResponse; cbn [chunks ending].
  rewrite Hsent.
  destruct (turn_after clock cs st) as (_ & _ & _ & before & Hb & Hs).
  destruct (streamLoop (onChunk (aiMsgId clock)) cs "" (mkTurn "" (opened clock st)))
    as [ft t]; cbn [snd] in Hs.
  cbn [fst snd messages]. rewrite Hs, setText_last, last_snoc, length_app, setText_length.
  cbn [length]. split; [reflexivity|]. split; [lia|]. split; [reflexivity|].
  split; [reflexivity|]. destruct fin; reflexivity.
Qed.

Lemma failed_turn_shows_apology_and_typing_is_cleared_witness :
  isBlank (input greeting) = false /\
  last (messages (fst (handleSend sampleClock false ENGLISH
                         (mkStream sampleChunks Raised) greeting))) =
    Some (mkMessage "1762000003001" model
                    "I'm having trouble connecting. Please try again."
                    1762000003001) /\
  isTyping (fst (handleSend sampleClock false ENGLISH
                   (mkStream sampleChunks Raised) greeting)) = false.
Proof.
  split; [reflexivity|].
  pose proof (failed_turn_shows_apology_and_typing_is_cleared sampleClock false ENGLISH
                sampleChunks Raised greeting eq_refl) as H.
  split; [exact (proj1 H)|exact (proj2 (proj2 (proj2 (proj2 H))))].
Defined.

End ChatFacts.

Module LibraryFacts.
Import Library.

Lemma startsWith_empty_sub s : startsWith s "" = true.
Proof. destruct s; reflexivity. Qed.

Lemma startsWith_spec sub : forall s,
  startsWith s sub = true <-> exists after, s = sub +:+ after.
Proof.
  induction sub as [|b sub IH]; intros s.
  - destruct s; cbn [startsWith]; split; eauto.
  - destruct s as [|a s]; cbn [startsWith].
    + split; [discriminate|]. intros (after & Heq). discriminate Heq.
    + rewrite andb_true_iff, IH. split.
      * intros (Hab & after & ->). apply Ascii.eqb_eq in Hab as ->.
        exists after. reflexivity.
      * intros (after & Heq).
        change (String b sub +:+ after) with (String b (sub +:+ after)) in Heq.
        injection Heq as -> ->. split; [apply Ascii.eqb_refl|eauto].
Qed.

Lemma includes_spec sub : forall s,
  includes s sub = true <-> exists before after, s = before +:+ sub +:+ after.
Proof.
  induction s as [|a s IH]; cbn [includes]; rewrite orb_true_iff, startsWith_spec.
  - split.
    + intros [(after & Heq)|Hf]; [|discriminate]. exists "", after. exact Heq.
    + intros (before & after & Heq). left.
      destruct before as [|c before]; [|discriminate Heq].
      exists after. exact Heq.
  - rewrite IH. split.
    + intros [(after & Heq)|(before & after & Heq)].
      * exists "", after. exact Heq.
      * exists (String a before), after. rewrite Heq. reflexivity.
    + intros (before & after & Heq).
      destruct before as [|c before].
      * left. exists after. exact Heq.
      * right. exists before, after.
        change (String c before +:+ sub +:+ after)
          with (String c (before +:+ sub +:+ after)) in Heq.
        injection Heq as _ Heq. exact Heq.
Qed.

(** Every character is in [allAscii], so a test that passes on the list
    passes on every character. *)
Lemma forall_ascii (P : ascii -> bool) :
  forallb P allAscii = true -> forall a, P a = true.
Proof.
  intros Hall a. apply (proj1 (forallb_forall P allAscii) Hall).
  rewrite <- (ascii_nat_embedding a). unfold allAscii.
  apply List.in_map, List.in_seq. pose proof (nat_ascii_bounded a). lia.
Qed.

(** [toLowerCase] identifies exactly the characters that are the same up to
    letter case. *)
Lemma lowerChar_sameLetter (a b : ascii) :
  Ascii.eqb (lowerChar a) (lowerChar b) = sameLetter a b.
Proof.
  apply eqb_prop.
  revert b. apply forall_ascii. revert a. apply forall_ascii.
  vm_compute. reflexivity.
Qed.

Lemma startsWith_lower query : forall s,
  startsWith (toLowerCase s) (toLowerCase query) = true <->
  exists passage after, s = passage +:+ after /\ sameText passage query = true.
Proof.
  induction query as [|b query IH]; intros s.
  - cbn [toLowerCase]. rewrite startsWith_empty_sub. split; [|reflexivity].
    intros _. exists "", s. split; reflexivity.
  - destruct s as [|c s]; cbn [toLowerCase startsWith].
    + split; [discriminate|]. intros (passage & after & Heq & Hsame).
      destruct passage; [discriminate Hsame|discriminate Heq].
    + rewrite andb_true_iff, lowerChar_sameLetter, IH. split.
      * intros (Hcb & passage & after & -> & Hsame).
        exists (String c passage), after. split; [reflexivity|].
        cbn [sameText]. rewrite Hcb, Hsame. reflexivity.
      * intros (passage & after & Heq & Hsame).
        destruct passage as [|c' passage]; [discriminate Hsame|].
        change (String c s = String c' (passage +:+ after)) in Heq.
        injection Heq as <- ->. cbn [sameText] in Hsame.
        apply andb_true_iff in Hsame as (Hcb & Hsame).
        split; [exact Hcb|]. exists passage, after. auto.
Qed.

Lemma includes_lower query : forall s,
  includes (toLowerCase s) (toLowerCase query) = true <->
  exists before passage after,
    s = before +:+ passage +:+ after /\ sameText passage query = true.
Proof.
  induction s as [|a s IH]; cbn [toLowerCase includes];
    rewrite orb_true_iff.
  - change EmptyString with (toLowerCase "") at 1. rewrite startsWith_lower. split.
    + intros [(passage & after & Heq & Hsame)|Hf]; [|discriminate].
      exists "", passage, after. auto.
    + intros (before & passage & after & Heq & Hsame). left.
      destruct before as [|c before]; [|discriminate Heq].
      exists passage, after. auto.
  - change (String (lowerChar a) (toLowerCase s)) with (toLowerCase (String a s)).
    rewrite startsWith_lower, IH. split.
    + intros [(passage & after & Heq & Hsame)|(before & passage & after & Heq & Hsame)].
      * exists "", passage, after. auto.
      * exists (String a before), passage, after. rewrite Heq. auto.
    + intros (before & passage & after & Heq & Hsame).
      destruct before as [|c before].
      * left. exists passage, after. auto.
      * right. exists before, passage, after.
        change (String a s = String c (before +:+ passage +:+ after)) in Heq.
        injection Heq as _ Heq. auto.
Qed.

(** The filter of the code is the case-insensitive substring match. *)
Lemma titleMatches_spec query b :
  titleMatches query b = true <-> containsIgnoringCase query (title b).
Proof. unfold titleMatches, containsIgnoringCase. apply includes_lower. Qed.

Lemma filter_empty_iff {A} (f : A -> bool) (l : list A) :
  List.filter f l = [] <-> forall x, In x l -> f x = false.
Proof.
  induction l as [|x l IH]; cbn [List.filter].
  - split; [intros _ y []|reflexivity].
  - destruct (f x) eqn:Hx.
    + split; [discriminate|]. intros H. rewrite (H x) in Hx; [discriminate|left; reflexivity].
    + rewrite IH. split.
      * intros H y [<-|Hy]; [exact Hx|apply H, Hy].
      * intros H y Hy. apply H. right. exact Hy.
Qed.

Lemma len_zero_iff {A} (l : list A) : (len l =? 0) = true <-> l = [].
Proof.
  unfold len. destruct l; cbn [length].
  - split; reflexivity.
  - split; [|discriminate]. intros H. apply Z.eqb_eq in H. lia.
Qed.

(** The calls of the whole handler are the calls made before the
    [await]. *)
Lemma handleSearch_calls answer st :
  snd (handleSearch answer st) = snd (handleSearch_issue st).
Proof.
  unfold handleSearch. destruct (handleSearch_issue st) as [st1 [|c calls]]; reflexivity.
Qed.

(** C4: the books shown, and the local results of a search, are the books
    whose title contains the query up to letter case, in the order of the
    library and as often as the library holds them; a search calls the
    external-resource provider at most once, with the query, and it calls
    it exactly when no book matches and the query is longer than 3
    characters. *)
Theorem external_call_iff_no_local_match_and_long_query
    (st : LibraryState) (answer : Answer) :
  (forall b, In b (filteredBooks st) <->
             In b (books st) /\ containsIgnoringCase (searchQuery st) (title b)) /\
  sublist (filteredBooks st) (books st) /\
  (forall l, sublist l (books st) ->
             Forall (fun b => containsIgnoringCase (searchQuery st) (title b)) l ->
             sublist l (filteredBooks st)) /\
  snd (handleSearch answer st) =
    (if (len (filteredBooks st) =? 0) && (3 <? Z.of_nat (String.length (searchQuery st)))
     then [FindExternal (searchQuery st)] else []) /\
  (snd (handleSearch answer st) = [FindExternal (searchQuery st)] <->
     (forall b, In b (books st) ->
                ~ containsIgnoringCase (searchQuery st) (title b)) /\
     (3 < String.length (searchQuery st))%nat) /\
  (snd (handleSearch answer st) = [] <->
     ~ ((forall b, In b (books st) ->
                   ~ containsIgnoringCase (searchQuery st) (title b)) /\
        (3 < String.length (searchQuery st))%nat)).
Proof.
  assert (Hcalls : snd (handleSearch answer st) =
    (if (len (filteredBooks st) =? 0) && (3 <? Z.of_nat (String.length (searchQuery st)))
     then [FindExternal (searchQuery st)] else [])).
  { rewrite handleSearch_calls. unfold handleSearch_issue, filteredBooks.
    destruct ((len (List.filter (titleMatches (searchQuery st)) (books st)) =? 0)
              && (3 <? Z.of_nat (String.length (searchQuery st)))); reflexivity. }
  assert (Hcond :
    (len (filteredBooks st) =? 0) && (3 <? Z.of_nat (String.length (searchQuery st))) = true
    <-> (forall b, In b (books st) ->
                   ~ containsIgnoringCase (searchQuery st) (title b)) /\
        (3 < String.length (searchQuery st))%nat).
  { rewrite andb_true_iff, len_zero_iff, Z.ltb_lt. unfold filteredBooks.
    rewrite filter_empty_iff. split.
    - intros (Hnone & Hlen). split; [|lia].
      intros b Hb Hc. apply titleMatches_spec in Hc.
      rewrite (Hnone b Hb) in Hc. discriminate.
    - intros (Hnone & Hlen). split; [|lia].
      intros b Hb. destruct (titleMatches (searchQuery st) b) eqn:Hm; [|reflexivity].
      exfalso. apply (Hnone b Hb), titleMatches_spec, Hm. }
  destruct (ListFacts.filter_greatest_sublist
              (titleMatches (searchQuery st))
              (fun b => containsIgnoringCase (searchQuery st) (title b))
              (books st) (titleMatches_spec (searchQuery st)))
    as (Hsub & _ & Hmax).
  split; [|split; [exact Hsub|split; [exact Hmax|split; [exact Hcalls|split]]]].
  - intros b. unfold filteredBooks. rewrite List.filter_In, titleMatches_spec. reflexivity.
  - rewrite Hcalls, <- Hcond.
    destruct ((len (filteredBooks st) =? 0)
              && (3 <? Z.of_nat (String.length (searchQuery st))));
      split; intros H; try reflexivity; discriminate H.
  - rewrite Hcalls, <- Hcond.
    destruct ((len (filteredBooks st) =? 0)
              && (3 <? Z.of_nat (String.length (searchQuery st))));
      split; intros H.
    + discriminate H.
    + exfalso. apply H. reflexivity.
    + intros H'. discriminate H'.
    + reflexivity.
Qed.

(** The two searches of the specification's examples, on the seeded
    library. *)
Example search_phys :
  filteredBooks (typed "phys" initial) =
    [mkBook "1" "Physics I" "OpenStax" "bg-blue-500"
            "Mechanics, Waves, and Thermodynamics." "Sample content..."] /\
  snd (handleSearch Rejects (typed "phys" initial)) = [].
Proof. split; reflexivity. Qed.

Example search_quantum_biology :
  filteredBooks (typed "Quantum Biology" initial) = [] /\
  snd (handleSearch Rejects (typed "Quantum Biology" initial)) =
    [FindExternal "Quantum Biology"].
Proof. split; reflexivity. Qed.

(** Letter case is ignored on both sides, for the letters A to Z and for
    the accented letters of the one-byte alphabet: a library that holds the
    title [ecole] shows it for the query [ECOLE] and calls nothing, and
    "PHYSICS" finds "Physics I"; the signs U+00D7 and U+00F7, 32 apart, are
    not the two cases of a letter. *)
Example search_ignores_letter_case :
  let added := fst (handleAddBook true (Some ecole) 1762000000000 initial) in
  List.map title (filteredBooks (typed ECOLE added)) = [ecole] /\
  snd (handleSearch Rejects (typed ECOLE added)) = [] /\
  List.map title (filteredBooks (typed "PHYSICS" initial)) = ["Physics I"] /\
  snd (handleSearch Rejects (typed "PHYSICS" initial)) = [] /\
  toLowerCase ECOLE = ecole /\
  toLowerCase (String "215"%char "") = String "215"%char "" /\
  sameLetter "215"%char "247"%char = false.
Proof. cbn zeta. repeat split; vm_compute; reflexivity. Qed.

End LibraryFacts.

Module SettingsFacts.
Import Settings.

(** C5 as stated fails: with owner mode on, the switch turns it off without
    asking for anything, so a change of the flag does not imply that the
    secret was typed, nor that the prompt was shown. *)
Lemma switching_off_asks_no_secret :
  handleAdminToggle None true = (false, []) /\
  ~ (forall typed isAdminMode,
       fst (handleAdminToggle typed isAdminMode) <> isAdminMode ->
       typed = Some ownerPassword /\
       existsb isPrompt (snd (handleAdminToggle typed isAdminMode)) = true).
Proof.
  split; [reflexivity|].
  intros H. destruct (H None true) as [Hsecret _]; [discriminate|discriminate Hsecret].
Qed.

(** C5, amended: with owner mode off, the switch shows the prompt; the
    secret, typed exactly, turns owner mode on and nothing else is shown;
    any other text, or Cancel, leaves it off and shows the denial; with
    owner mode on, the switch turns it off with no prompt and no alert;
    the switch is rendered exactly for the owner's email. *)
Theorem owner_switch_gate (typed : option string) (u : User) :
  handleAdminToggle typed false =
    (if decide (typed = Some "ag12de34")
     then (true, [Prompt "Enter Owner Password:"])
     else (false, [Prompt "Enter Owner Password:";
                   Alert "Incorrect Password. Access Denied."])) /\
  handleAdminToggle typed true = (false, []) /\
  (ownerSwitchRendered u = true <-> email u = "agdealers8@gmail.com").
Proof.
  split; [|split; [reflexivity|apply String.eqb_eq]].
  unfold handleAdminToggle, ownerPassword, onToggleAdmin, denial.
  destruct typed as [pwd|].
  - destruct (String.eqb_spec pwd "ag12de34") as [->|Hne].
    + rewrite decide_True by reflexivity. reflexivity.
    + rewrite decide_False by congruence. reflexivity.
  - rewrite decide_False by discriminate. reflexivity.
Qed.

End SettingsFacts.

Module QuizInvariants.
Import Quiz.

Lemma at_index_in_range {A} (xs : list A) (i : Z) :
  0 <= i < len xs -> exists x, at_index xs i = Some x.
Proof.
  intros Hi. unfold at_index, len in *.
  replace (i <? 0) with false by (symmetry; apply Z.ltb_ge; lia).
  apply lookup_lt_is_Some. lia.
Qed.

Lemma step_inProgress qs e st :
  inProgress qs st ->
  inProgress qs (fst (step e st)) /\ snd (step e st) = Normal.
Proof.
  intros (Hq & Hidx & Hsc). destruct e as [i|]; cbn [step fst snd].
  - unfold handleAnswer. destruct (selectedAnswer st) as [a|] eqn:Hsel.
    + cbn [fst snd]. split; [|reflexivity]. unfold inProgress. rewrite Hsel. auto.
    + destruct (at_index_in_range (questions st) (currentIndex st)) as [q Hat];
        [rewrite Hq; exact Hidx|].
      rewrite Hat.
      destruct (i =? correctAnswerIndex q); cbn [fst snd]; (split; [|reflexivity]);
        unfold inProgress;
        cbn [questions currentIndex score selectedAnswer]; repeat split; try lia;
        exact Hq.
  - split; [|reflexivity]. unfold nextQuestion. rewrite Hq.
    destruct (currentIndex st <? len qs - 1) eqn:Hlt; unfold inProgress;
      cbn [questions currentIndex score selectedAnswer].
    + apply Z.ltb_lt in Hlt. repeat split; try lia; try exact Hq.
      destruct (selectedAnswer st); lia.
    + auto.
Qed.

(** X1: on a loaded, non-empty quiz no sequence of option and Next clicks
    makes a handler throw, moves the index out of the questions, changes the
    questions, or takes the score below zero or above the number of questions
    answered so far. *)
Theorem clicks_keep_quiz_in_range
    (q : QuizQuestion) (rest : list QuizQuestion) (st0 : QuizState)
    (es : list Event) :
  let final := run es (handleStart_loaded (q :: rest) st0) in
  snd final = false /\
  questions (fst final) = q :: rest /\
  0 <= currentIndex (fst final) < len (q :: rest) /\
  0 <= score (fst final) <=
    currentIndex (fst final)
    + (match selectedAnswer (fst final) with Some _ => 1 | None => 0 end) /\
  score (fst final) <= len (q :: rest).
Proof.
  cbn zeta.
  assert (Hgen : forall es st, inProgress (q :: rest) st ->
            snd (run es st) = false /\ inProgress (q :: rest) (fst (run es st))).
  { clear es. induction es as [|e es IH]; intros st Hst; cbn [run].
    - auto.
    - destruct (step_inProgress _ e st Hst) as (Hst1 & Hnorm).
      destruct (step e st) as [st1 c]; cbn [fst snd] in *. subst c.
      destruct (IH st1 Hst1) as (Hb & Hfin).
      destruct (run es st1) as [st2 b]; cbn [fst snd] in *. subst b. auto. }
  destruct (Hgen es (handleStart_loaded (q :: rest) st0)) as (Hb & Hq & Hidx & Hsc).
  { unfold inProgress, handleStart_loaded, len;
      cbn [questions currentIndex score selectedAnswer length].
    split; [reflexivity|lia]. }
  repeat split; try assumption; try lia.
  destruct (selectedAnswer _); lia.
Qed.

(** On the result screen only Try Another does anything. *)
Lemma press_on_result p st :
  showResult st = true ->
  press p st = match p with PressTryAnother => tryAnother st | _ => st end.
Proof.
  intros Hshow. unfold press, render. rewrite Hshow, orb_true_r.
  destruct p; reflexivity.
Qed.

(** X2: once the result screen is shown, no button of the component brings
    the start form or a question back: after any presses the screen is still
    the result screen with the same score, and from the first Try Another on
    it shows that score over 0. *)
Theorem result_screen_is_final (ps : list Press) (st : QuizState)
    (Hshow : showResult st = true) :
  render (presses ps st) =
    Some (ResultScreen (score st) (len (questions (presses ps st)))) /\
  render (presses (PressTryAnother :: ps) st) = Some (ResultScreen (score st) 0).
Proof.
  assert (Hgen : forall ps st, showResult st = true ->
            showResult (presses ps st) = true /\ score (presses ps st) = score st /\
            (questions st = [] -> questions (presses ps st) = [])).
  { clear. induction ps as [|p ps IH]; intros st Hshow; [auto|].
    unfold presses; cbn [foldl]. fold (presses ps (press p st)).
    rewrite (press_on_result p st Hshow).
    destruct p; try (apply IH; exact Hshow).
    destruct (IH (tryAnother st) Hshow) as (H1 & H2 & H3).
    split; [exact H1|]. split; [exact H2|]. intros _. apply H3. reflexivity. }
  destruct (Hgen ps st Hshow) as (H1 & H2 & _).
  split.
  - unfold render. rewrite H1, orb_true_r, H2. reflexivity.
  - unfold presses; cbn [foldl]. fold (presses ps (press PressTryAnother st)).
    rewrite (press_on_result PressTryAnother st Hshow).
    destruct (Hgen ps (tryAnother st) Hshow) as (H1' & H2' & H3').
    unfold render. rewrite H1', orb_true_r, H2', H3' by reflexivity. reflexivity.
Qed.

Lemma result_screen_is_final_witness :
  showResult (mkQuiz sampleQuiz 2 2 (Some 2) true false) = true /\
  render (presses [PressTryAnother; PressStart "Algebra" "" (Some sampleQuiz);
                   PressOption 1; PressNext]
            (mkQuiz sampleQuiz 2 2 (Some 2) true false)) =
    Some (ResultScreen 2 0).
Proof.
  split; [reflexivity|].
  exact (proj2 (result_screen_is_final
                  [PressStart "Algebra" "" (Some sampleQuiz); PressOption 1; PressNext]
                  (mkQuiz sampleQuiz 2 2 (Some 2) true false) eq_refl)).
Defined.

End QuizInvariants.

Module FlashcardsInvariants.
Import Flashcards FlashcardsFacts.

Lemma rem_next_prev (i n : Z) :
  0 <= i < n -> Z.rem (Z.rem (i + 1) n - 1 + n) n = i.
Proof.
  intros Hi. destruct (Z.eq_dec (i + 1) n) as [Heq|Hne].
  - rewrite Heq, Z.rem_same by lia. rewrite Z.rem_small; lia.
  - rewrite (Z.rem_small (i + 1) n) by lia.
    rewrite Z.rem_mod_nonneg by lia.
    replace (i + 1 - 1 + n) with (i + 1 * n) by lia.
    rewrite Z.mod_add by lia. apply Z.mod_small. lia.
Qed.

Lemma rem_prev_next (i n : Z) :
  0 <= i < n -> Z.rem (Z.rem (i - 1 + n) n + 1) n = i.
Proof.
  intros Hi. destruct (Z.eq_dec i 0) as [->|Hne].
  - rewrite (Z.rem_small (0 - 1 + n) n) by lia.
    replace (0 - 1 + n + 1) with n by lia. apply Z.rem_same. lia.
  - rewrite (Z.rem_mod_nonneg (i - 1 + n) n) by lia.
    replace (i - 1 + n) with (i - 1 + 1 * n) by lia.
    rewrite Z.mod_add, Z.mod_small by lia.
    replace (i - 1 + 1) with i by lia. apply Z.rem_small. lia.
Qed.

(** X3: with a non-empty card list and the index inside it, Previous after
    Next, and Next after Previous, come back to the same card of the same
    list. *)
Theorem next_and_prev_undo_each_other (st : FlashState)
    (Hcards : cards st <> []) (Hidx : 0 <= currentIndex st < len (cards st)) :
  exists n p,
    handleNext st = Some n /\ handlePrev n = Some p /\
    currentIndex p = currentIndex st /\ cards p = cards st /\
    exists p' n',
      handlePrev st = Some p' /\ handleNext p' = Some n' /\
      currentIndex n' = currentIndex st /\ cards n' = cards st.
Proof.
  pose proof (len_pos_ne _ Hcards) as HN.
  assert (Hz : (len (cards st) =? 0) = false) by (apply Z.eqb_neq; lia).
  set (n := goTo (Z.rem (currentIndex st + 1) (len (cards st))) st).
  set (p' := goTo (Z.rem (currentIndex st - 1 + len (cards st)) (len (cards st))) st).
  destruct (goTo_frame (Z.rem (currentIndex st + 1) (len (cards st))) st)
    as (_ & Hcn & Hin). fold n in Hcn, Hin.
  destruct (goTo_frame (Z.rem (currentIndex st - 1 + len (cards st)) (len (cards st))) st)
    as (_ & Hcp & Hip). fold p' in Hcp, Hip.
  exists n, (goTo (Z.rem (currentIndex n - 1 + len (cards n)) (len (cards n))) n).
  split.
  { unfold handleNext, nextIndex, js_rem. rewrite Hz. reflexivity. }
  split.
  { unfold handlePrev, prevIndex, js_rem. rewrite Hcn, Hz. reflexivity. }
  destruct (goTo_frame (Z.rem (currentIndex n - 1 + len (cards n)) (len (cards n))) n)
    as (_ & Hc2 & Hi2).
  split; [rewrite Hi2, Hcn, Hin; apply rem_next_prev, Hidx|].
  split; [rewrite Hc2; exact Hcn|].
  exists p', (goTo (Z.rem (currentIndex p' + 1) (len (cards p'))) p').
  split.
  { unfold handlePrev, prevIndex, js_rem. rewrite Hz. reflexivity. }
  split.
  { unfold handleNext, nextIndex, js_rem. rewrite Hcp, Hz. reflexivity. }
  destruct (goTo_frame (Z.rem (currentIndex p' + 1) (len (cards p'))) p')
    as (_ & Hc3 & Hi3).
  split; [rewrite Hi3, Hcp, Hip; apply rem_prev_next, Hidx|].
  rewrite Hc3. exact Hcp.
Qed.

Lemma next_and_prev_undo_each_other_witness :
  cards onLastOfThree <> [] /\
  0 <= currentIndex onLastOfThree < len (cards onLastOfThree) /\
  exists n p,
    handleNext onLastOfThree = Some n /\ handlePrev n = Some p /\
    currentIndex p = currentIndex onLastOfThree /\ cards p = cards onLastOfThree /\
    exists p' n',
      handlePrev onLastOfThree = Some p' /\ handleNext p' = Some n' /\
      currentIndex n' = currentIndex onLastOfThree /\ cards n' = cards onLastOfThree.
Proof.
  split; [discriminate|]. split; [split; [discriminate|reflexivity]|].
  apply (next_and_prev_undo_each_other onLastOfThree);
    [discriminate|split; [discriminate|reflexivity]].
Defined.

Lemma step_Next st :
  cards st <> [] ->
  cards (step Next st) = cards st /\
  currentIndex (step Next st) = Z.rem (currentIndex st + 1) (len (cards st)).
Proof.
  intros Hcards. pose proof (len_pos_ne _ Hcards) as HN.
  cbn [step]. unfold handleNext, nextIndex, js_rem.
  replace (len (cards st) =? 0) with false by (symmetry; apply Z.eqb_neq; lia).
  cbn [mbind option_bind default].
  split; apply goTo_frame.
Qed.

(** X4: with a non-empty list of N cards and the index inside it, k presses
    of Next leave the list as it is and the index at (index + k) mod N; N
    presses come back to the same card. *)
Theorem next_pressed_k_times (k : nat) (st : FlashState)
    (Hcards : cards st <> []) (Hidx : 0 <= currentIndex st < len (cards st)) :
  cards (run (replicate k Next) st) = cards st /\
  currentIndex (run (replicate k Next) st) =
    (currentIndex st + Z.of_nat k) mod len (cards st) /\
  currentIndex (run (replicate (length (cards st)) Next) st) = currentIndex st.
Proof.
  assert (Hgen : forall k st, cards st <> [] -> 0 <= currentIndex st < len (cards st) ->
            cards (run (replicate k Next) st) = cards st /\
            currentIndex (run (replicate k Next) st) =
              (currentIndex st + Z.of_nat k) mod len (cards st)).
  { clear. induction k as [|k IH]; intros st Hcards Hidx.
    - cbn. rewrite Z.add_0_r, Z.mod_small by lia. auto.
    - unfold run; cbn [replicate foldl]. fold (run (replicate k Next) (step Next st)).
      destruct (step_Next st Hcards) as (Hc & Hi).
      pose proof (len_pos_ne _ Hcards) as HN.
      destruct (IH (step Next st)) as (Hc' & Hi').
      { rewrite Hc. exact Hcards. }
      { rewrite Hc, Hi. apply Z.rem_bound_pos; lia. }
      rewrite Hc', Hi', Hc, Hi. split; [reflexivity|].
      rewrite Z.rem_mod_nonneg by lia.
      rewrite Z.add_mod_idemp_l by lia. f_equal. lia. }
  destruct (Hgen k st Hcards Hidx) as (Hc & Hi).
  split; [exact Hc|]. split; [exact Hi|].
  destruct (Hgen (length (cards st)) st Hcards Hidx) as (_ & Hn).
  rewrite Hn. fold (len (cards st)).
  replace (currentIndex st + len (cards st))
    with (currentIndex st + 1 * len (cards st)) by lia.
  rewrite Z.mod_add by lia. apply Z.mod_small, Hidx.
Qed.

Lemma next_pressed_k_times_witness :
  cards onLastOfThree <> [] /\
  0 <= currentIndex onLastOfThree < len (cards onLastOfThree) /\
  currentIndex (run (replicate 5 Next) onLastOfThree) = 1.
Proof.
  assert (Hc : cards onLastOfThree <> []) by discriminate.
  assert (Hi : 0 <= currentIndex onLastOfThree < len (cards onLastOfThree))
    by (split; [discriminate|reflexivity]).
  split; [exact Hc|]. split; [exact Hi|].
  destruct (next_pressed_k_times 5 onLastOfThree Hc Hi) as (_ & H & _).
  rewrite H. vm_compute. reflexivity.
Defined.

Lemma sameText_refl c : sameText c c.
Proof. unfold sameText. auto. Qed.

Lemma sameText_trans c1 c2 c3 : sameText c1 c2 -> sameText c2 c3 -> sameText c1 c3.
Proof. unfold sameText. intros (H1 & H2 & H3) (H4 & H5 & H6). repeat split; congruence. Qed.

Lemma resolve_frame k img st :
  (heap (resolve k img st) = heap st \/
   exists a, heap (resolve k img st) = alter (setGeneratedImage img) a (heap st)) /\
  currentIndex (resolve k img st) = currentIndex st.
Proof.
  unfold resolve.
  destruct (pending st !! k) as [p|]; [|auto].
  destruct (truthy img); [|auto].
  destruct (at_index (seenCards p) (seenIndex p)) as [a|]; [|auto].
  destruct (imageEffect_frame
              (mkFlash (alter (setGeneratedImage img) a (heap st)) (seenCards p)
                       (currentIndex st) (isFlipped st) (isLoading st)
                       (delete k (pending st)))) as (Hh & _ & Hi).
  rewrite Hh, Hi. split; [right; exists a; reflexivity|reflexivity].
Qed.

Lemma step_keeps_text e st a c :
  heap st !! a = Some c ->
  exists c', heap (step e st) !! a = Some c' /\ sameText c c'.
Proof.
  intros Ha.
  assert (Hsame : forall st', heap st' = heap st ->
            exists c', heap st' !! a = Some c' /\ sameText c c').
  { intros st' ->. exists c. split; [exact Ha|apply sameText_refl]. }
  destruct e as [cs| | | |k img]; cbn [step].
  - unfold handleGenerate_loaded.
    rewrite (proj1 (imageEffect_frame _)); cbn [heap].
    exists c. split; [apply lookup_app_l_Some, Ha|apply sameText_refl].
  - unfold handleNext. destruct (nextIndex _ _); cbn [mbind option_bind default];
      apply Hsame; [apply goTo_frame|reflexivity].
  - unfold handlePrev. destruct (prevIndex _ _); cbn [mbind option_bind default];
      apply Hsame; [apply goTo_frame|reflexivity].
  - apply Hsame. destruct (0 <? len (cards st)); reflexivity.
  - destruct (resolve_frame k img st) as ([Hh|(b & Hh)] & _).
    + apply Hsame, Hh.
    + rewrite Hh, list_lookup_alter. destruct (decide (b = a)) as [->|Hne].
      * rewrite Ha. eexists. split; [reflexivity|].
        unfold sameText, setGeneratedImage; cbn. auto.
      * exists c. split; [exact Ha|apply sameText_refl].
Qed.

(** X5: a card object that is in the store stays there, and no event
    (a new card set, Next, Previous, Flip, an illustration answer) changes
    its front, its back or its image keyword. *)
Theorem card_texts_never_change (es : list Event) (st : FlashState)
    (a : nat) (c : Flashcard) (Ha : heap st !! a = Some c) :
  exists c',
    heap (run es st) !! a = Some c' /\
    front c' = front c /\ back c' = back c /\ imageKeyword c' = imageKeyword c.
Proof.
  revert st c Ha. induction es as [|e es IH]; intros st c Ha.
  - exists c. cbn. auto.
  - unfold run; cbn [foldl]. fold (run es (step e st)).
    destruct (step_keeps_text e st a c Ha) as (c1 & Ha1 & Hs1).
    destruct (IH (step e st) c1 Ha1) as (c2 & Ha2 & Hs2).
    exists c2. split; [exact Ha2|].
    apply (sameText_trans c c1 c2 Hs1). exact Hs2.
Qed.

Lemma card_texts_never_change_witness :
  heap (run [Generated twoCards] initial) !! 1%nat =
    Some (mkCard "Stomata" "Pores of the leaf surface" (Some "pore") None) /\
  exists c',
    heap (run (lateAnswer :: browseAhead) (run [Generated twoCards] initial)) !! 1%nat
      = Some c' /\
    front c' = "Stomata" /\ back c' = "Pores of the leaf surface" /\
    imageKeyword c' = Some "pore".
Proof.
  split; [reflexivity|].
  apply (card_texts_never_change (lateAnswer :: browseAhead)
           (run [Generated twoCards] initial) 1%nat
           (mkCard "Stomata" "Pores of the leaf surface" (Some "pore") None)).
  reflexivity.
Defined.

Lemma imageEffect_consistent st : consistent st -> consistent (imageEffect st).
Proof.
  intros (Hp & Ha & Hi & Hr).
  destruct (imageEffect_frame st) as (Hh & Hc & Hci).
  unfold consistent. rewrite Hh, Hc, Hci, imageEffect_pending.
  split; [|auto].
  apply Forall_app_2; [exact Hp|].
  destruct (cardAt (heap st) (cards st) (currentIndex st)) as [card|]; [|constructor].
  destruct ((0 <? len (cards st)) && negb (truthy (generatedImage card))
            && truthy (imageKeyword card)); repeat constructor.
Qed.

Lemma goTo_consistent i st :
  consistent st -> 0 <= i < len (cards st) -> consistent (goTo i st).
Proof.
  intros (Hp & Ha & Hi & Hr) Hrange. unfold goTo.
  assert (Hc : consistent (mkFlash (heap st) (cards st) i false (isLoading st)
                             (pending st))).
  { unfold consistent; cbn [heap cards currentIndex pending].
    split; [exact Hp|]. split; [exact Ha|]. split; [lia|right; lia]. }
  destruct (i =? currentIndex st); [exact Hc|apply imageEffect_consistent, Hc].
Qed.

(** Without a new card set, an event keeps the card list and the
    consistency. *)
Lemma step_consistent e st :
  isGenerated e = false -> consistent st ->
  consistent (step e st) /\ cards (step e st) = cards st.
Proof.
  intros He Hst. pose proof Hst as (Hp & Ha & Hi & Hr).
  destruct e as [cs| | | |k img]; [discriminate He| | | |]; cbn [step].
  - unfold handleNext, nextIndex, js_rem.
    destruct (len (cards st) =? 0) eqn:Hz; cbn [mbind option_bind default]; [auto|].
    apply Z.eqb_neq in Hz. assert (HN : 0 < len (cards st)) by (unfold len in *; lia).
    split; [|apply goTo_frame].
    apply goTo_consistent; [exact Hst|apply Z.rem_bound_pos; lia].
  - unfold handlePrev, prevIndex, js_rem.
    destruct (len (cards st) =? 0) eqn:Hz; cbn [mbind option_bind default]; [auto|].
    apply Z.eqb_neq in Hz. assert (HN : 0 < len (cards st)) by (unfold len in *; lia).
    split; [|apply goTo_frame].
    apply goTo_consistent; [exact Hst|apply Z.rem_bound_pos; lia].
  - destruct (0 <? len (cards st)); auto.
  - unfold resolve. destruct (pending st !! k) as [p|] eqn:Hk; [|auto].
    assert (Hrest : Forall (fun q => seenCards q = cards st) (delete k (pending st)))
      by (apply Forall_delete, Hp).
    pose proof (Forall_lookup_1 _ _ _ _ Hp Hk) as Hseen. cbn beta in Hseen.
    assert (Hplain : consistent (mkFlash (heap st) (cards st) (currentIndex st)
                                   (isFlipped st) (isLoading st) (delete k (pending st)))).
    { unfold consistent; cbn [heap cards currentIndex pending]. auto. }
    destruct (truthy img); [|auto].
    destruct (at_index (seenCards p) (seenIndex p)) as [a|]; [|auto].
    rewrite Hseen.
    split; [|rewrite (proj1 (proj2 (imageEffect_frame _))); reflexivity].
    apply imageEffect_consistent.
    unfold consistent; cbn [heap cards currentIndex pending].
    rewrite length_alter. auto.
Qed.

Lemma run_consistent es : forall st,
  forallb (fun e => negb (isGenerated e)) es = true -> consistent st ->
  consistent (run es st) /\ cards (run es st) = cards st.
Proof.
  induction es as [|e es IH]; intros st Hes Hst; [auto|].
  cbn [forallb] in Hes. apply andb_true_iff in Hes as (He & Hes).
  apply negb_true_iff in He.
  unfold run; cbn [foldl]. fold (run es (step e st)).
  destruct (step_consistent e st He Hst) as (Hst1 & Hc1).
  destruct (IH (step e st) Hes Hst1) as (Hst2 & Hc2).
  split; [exact Hst2|congruence].
Qed.

Lemma consistent_current_card st :
  consistent st -> cards st <> [] ->
  0 <= currentIndex st < len (cards st) /\
  exists card, cardAt (heap st) (cards st) (currentIndex st) = Some card.
Proof.
  intros (Hp & Ha & Hi & [Hr|Hr]) Hne; [contradiction|].
  split; [lia|]. unfold cardAt, at_index.
  replace (currentIndex st <? 0) with false by (symmetry; apply Z.ltb_ge; lia).
  destruct (lookup_lt_is_Some_2 (cards st) (Z.to_nat (currentIndex st))) as [a Hat].
  { unfold len in Hr. lia. }
  rewrite Hat; cbn [mbind option_bind].
  apply lookup_lt_is_Some_2. exact (Forall_lookup_1 _ _ _ _ Ha Hat).
Qed.

(** X6: when a card set loads while no illustration request is pending, then
    whatever follows short of a new card set (Next, Previous, Flip,
    illustration answers in any order) the card list stays the loaded one,
    the index stays inside it and the current card exists. *)
Theorem loaded_set_stays_current
    (c : Flashcard) (cs : list Flashcard) (es : list Event) (st0 : FlashState)
    (Hidle : pending st0 = [])
    (Hes : forallb (fun e => negb (isGenerated e)) es = true) :
  cards (run (Generated (c :: cs) :: es) st0) = seq (length (heap st0)) (S (length cs)) /\
  0 <= currentIndex (run (Generated (c :: cs) :: es) st0)
    < len (cards (run (Generated (c :: cs) :: es) st0)) /\
  exists card,
    cardAt (heap (run (Generated (c :: cs) :: es) st0))
           (cards (run (Generated (c :: cs) :: es) st0))
           (currentIndex (run (Generated (c :: cs) :: es) st0)) = Some card.
Proof.
  unfold run; cbn [foldl step]. fold (run es (handleGenerate_loaded (c :: cs) st0)).
  assert (Hst1 : consistent (handleGenerate_loaded (c :: cs) st0)).
  { unfold handleGenerate_loaded. apply imageEffect_consistent.
    unfold consistent; cbn [heap cards currentIndex pending length].
    rewrite Hidle. split; [constructor|]. split.
    - apply Forall_seq. intros j Hj. rewrite length_app; cbn [length]. lia.
    - split; [lia|right]. unfold len. rewrite length_seq. lia. }
  assert (Hc1 : cards (handleGenerate_loaded (c :: cs) st0)
                = seq (length (heap st0)) (S (length cs))).
  { unfold handleGenerate_loaded. rewrite (proj1 (proj2 (imageEffect_frame _))).
    reflexivity. }
  destruct (run_consistent es _ Hes Hst1) as (Hfin & Hcards).
  rewrite Hc1 in Hcards.
  apply consistent_current_card in Hfin; [|rewrite Hcards; discriminate].
  rewrite Hcards in *. split; [reflexivity|exact Hfin].
Qed.

Lemma loaded_set_stays_current_witness :
  pending initial = [] /\
  forallb (fun e => negb (isGenerated e))
          [Next; Resolved 1 (Some "data:image/png;base64,QQ=="); Prev; Flip;
           Resolved 0 None] = true /\
  cards (run (Generated twoCards ::
              [Next; Resolved 1 (Some "data:image/png;base64,QQ=="); Prev; Flip;
               Resolved 0 None]) initial) = [0%nat; 1%nat].
Proof.
  split; [reflexivity|]. split; [reflexivity|].
  exact (proj1 (loaded_set_stays_current
                  (mkCard "Chlorophyll" "The green pigment of plants" (Some "leaf") None)
                  [mkCard "Stomata" "Pores of the leaf surface" (Some "pore") None]
                  [Next; Resolved 1 (Some "data:image/png;base64,QQ=="); Prev; Flip;
                   Resolved 0 None]
                  initial eq_refl eq_refl)).
Defined.

Lemma len_seq_pos j n : (0 <? len (seq j (S n))) = true.
Proof. apply Z.ltb_lt. unfold len. rewrite length_seq. lia. Qed.

(** X7: a card set loads and an illustration is requested for its first
    card; a second card set loads and is on screen; when the answer to the
    old request arrives with an image, the card list on screen is the old one
    again (the closure's copy of it), and the image is stored in the old
    first card. *)
Theorem late_answer_brings_old_set_back
    (c : Flashcard) (old new : list Flashcard) (img : string)
    (Hwants : wantsImage c = true) (Himg : truthy (Some img) = true) :
  cards (run [Generated (c :: old); Generated new] initial) =
    seq (S (length old)) (length new) /\
  cards (run [Generated (c :: old); Generated new; Resolved 0 (Some img)] initial) =
    seq 0 (S (length old)) /\
  imageOf (run [Generated (c :: old); Generated new; Resolved 0 (Some img)] initial) 0
    = Some img.
Proof.
  unfold run; cbn [foldl step].
  set (st1 := handleGenerate_loaded (c :: old) initial).
  set (st2 := handleGenerate_loaded new st1).
  assert (H1 : heap st1 = c :: old /\ cards st1 = seq 0 (S (length old)) /\
               pending st1 = [mkPending (seq 0 (S (length old))) 0
                                        (default "" (imageKeyword c))]).
  { unfold st1, handleGenerate_loaded.
    destruct (imageEffect_frame
                (mkFlash (heap initial ++ c :: old)
                         (seq (length (heap initial)) (length (c :: old)))
                         0 false false (pending initial))) as (Hh & Hc & _).
    rewrite Hh, Hc, imageEffect_pending.
    cbn [heap cards currentIndex pending initial app length].
    rewrite len_seq_pos.
    unfold cardAt, at_index.
    cbn [Z.ltb Z.compare Z.to_nat seq lookup list_lookup mbind option_bind andb].
    change ((0%nat :: seq 1 (length old)) !! Z.to_nat 0 ≫= (fun a => (c :: old) !! a))
      with (Some c).
    cbv beta iota. unfold wantsImage in Hwants. rewrite Hwants. auto. }
  destruct H1 as (Hh1 & Hc1 & Hp1).
  assert (H2 : heap st2 = (c :: old) ++ new /\
               cards st2 = seq (S (length old)) (length new) /\
               pending st2 !! 0%nat =
                 Some (mkPending (seq 0 (S (length old))) 0
                                 (default "" (imageKeyword c)))).
  { unfold st2, handleGenerate_loaded.
    destruct (imageEffect_frame
                (mkFlash (heap st1 ++ new) (seq (length (heap st1)) (length new))
                         0 false false (pending st1))) as (Hh & Hc & _).
    rewrite Hh, Hc, imageEffect_pending.
    cbn [heap cards currentIndex pending]. rewrite Hh1, Hp1. cbn [length app].
    auto. }
  destruct H2 as (Hh2 & Hc2 & Hp2).
  split; [exact Hc2|].
  unfold resolve. rewrite Hp2, Himg. cbn [seenCards seenIndex].
  change (at_index (seq 0 (S (length old))) 0) with (Some 0%nat). cbv beta iota.
  match goal with
  | |- context [imageEffect ?x] => destruct (imageEffect_frame x) as (Hh & Hc & _)
  end.
  unfold imageOf. rewrite Hh, Hc. cbn [heap cards]. split; [reflexivity|].
  rewrite Hh2. reflexivity.
Qed.

Lemma late_answer_brings_old_set_back_witness :
  wantsImage plainCard = true /\
  truthy (Some "data:image/png;base64,QQ==") = true /\
  cards (run [Generated [plainCard]; Generated twoCards;
              Resolved 0 (Some "data:image/png;base64,QQ==")] initial) = [0%nat].
Proof.
  split; [reflexivity|]. split; [reflexivity|].
  exact (proj1 (proj2 (late_answer_brings_old_set_back plainCard [] twoCards
                         "data:image/png;base64,QQ==" eq_refl eq_refl))).
Defined.

End FlashcardsInvariants.

Module ServiceFacts.
Import Service.

Lemma firstWithUri_skip pre : forall rest,
  forallb (fun c => negb (truthy (chunkUri c))) pre = true ->
  firstWithUri (pre ++ rest) = firstWithUri rest.
Proof.
  induction pre as [|c pre IH]; intros rest Hpre; [reflexivity|].
  cbn [forallb] in Hpre. apply andb_true_iff in Hpre as (Hc & Hpre).
  apply negb_true_iff in Hc. cbn [app firstWithUri]. rewrite Hc. apply IH, Hpre.
Qed.

(** X8: when the chunks before a citation carry no link and the citation
    carries one, the resource is found, its link is that citation's uri, its
    title is that citation's title, or the query when the citation has none,
    and its description is the response text or the fixed sentence; the
    citations after it are not looked at. *)
Theorem first_citation_with_link_is_used
    (query : string) (pre post : list GroundingChunk) (w : Web) (txt : option string)
    (Hpre : forallb (fun c => negb (truthy (chunkUri c))) pre = true)
    (Hw : truthy (uri w) = true) :
  findExternalBookResource query
    (mkSearchResponse (Some (pre ++ mkChunk (Some w) :: post)) txt) =
  Library.mkResource true (Some (orElse (webTitle w) query)) (uri w)
    (Some (orElse txt "No description available.")).
Proof.
  unfold findExternalBookResource; cbn [groundingChunks responseText mbind option_bind].
  rewrite !(firstWithUri_skip pre _ Hpre). cbn [firstWithUri].
  unfold chunkUri; cbn [web mbind option_bind]. rewrite !Hw.
  cbn [mbind option_bind]. rewrite ?Hw. reflexivity.
Qed.

Lemma first_citation_with_link_is_used_witness :
  forallb (fun c => negb (truthy (chunkUri c)))
          [mkChunk (Some (mkWeb None (Some "No link")))] = true /\
  truthy (uri (mkWeb (Some "https://openstax.org/biology") None)) = true /\
  findExternalBookResource "Quantum Biology" sampleResponse =
    Library.mkResource true (Some "Quantum Biology")
      (Some "https://openstax.org/biology") (Some "A free biology textbook.").
Proof.
  split; [reflexivity|]. split; [reflexivity|].
  exact (first_citation_with_link_is_used "Quantum Biology"
           [mkChunk (Some (mkWeb None (Some "No link")))]
           [mkChunk (Some (mkWeb (Some "https://example.org") (Some "Other")))]
           (mkWeb (Some "https://openstax.org/biology") None)
           (Some "A free biology textbook.") eq_refl eq_refl).
Defined.

(** What the loop returns carries a link; it returns nothing only when no
    chunk carries one. *)
Lemma firstWithUri_spec chunks :
  match firstWithUri chunks with
  | Some w => truthy (uri w) = true /\
              existsb (fun c => truthy (chunkUri c)) chunks = true
  | None => existsb (fun c => truthy (chunkUri c)) chunks = false
  end.
Proof.
  induction chunks as [|c chunks IH]; [reflexivity|].
  cbn [firstWithUri existsb]. destruct (truthy (chunkUri c)) eqn:Hc; cbn [orb].
  - unfold chunkUri in Hc. destruct (web c) as [w|]; [|discriminate Hc].
    split; [exact Hc|reflexivity].
  - exact IH.
Qed.

Lemma orElse_truthy x fallback :
  truthy (Some fallback) = true -> truthy (Some (orElse x fallback)) = true.
Proof.
  intros Hf. unfold orElse. destruct (truthy x) eqn:Hx; [|exact Hf].
  destruct x as [s|]; [exact Hx|discriminate Hx].
Qed.

(** X9: a resource is found exactly when some grounding chunk carries a
    non-empty uri (never when the response has no chunks); a found resource
    has a non-empty link, one that is not found has none; the description is
    never empty, and the title is empty only when the query is. *)
Theorem resource_found_iff_some_citation_has_link
    (query : string) (response : SearchResponse) :
  let r := findExternalBookResource query response in
  Library.found r =
    existsb (fun c => truthy (chunkUri c)) (default [] (groundingChunks response)) /\
  truthy (Library.resourceLink r) = Library.found r /\
  (if Library.found r then True else Library.resourceLink r = None) /\
  truthy (Library.resourceDescription r) = true /\
  (if truthy (Some query) then truthy (Library.resourceTitle r) = true else True).
Proof.
  cbn zeta. unfold findExternalBookResource.
  cbn [Library.found Library.resourceLink Library.resourceDescription
       Library.resourceTitle].
  assert (Hlink :
    truthy ((groundingChunks response ≫= firstWithUri) ≫= uri) =
      existsb (fun c => truthy (chunkUri c)) (default [] (groundingChunks response)) /\
    (if truthy ((groundingChunks response ≫= firstWithUri) ≫= uri) then True
     else ((groundingChunks response ≫= firstWithUri) ≫= uri) = @None string)).
  { destruct (groundingChunks response) as [chunks|]; cbn [mbind option_bind];
      [|split; reflexivity].
    change (default [] (Some chunks)) with chunks.
    pose proof (firstWithUri_spec chunks) as Hspec.
    destruct (firstWithUri chunks) as [w|]; cbn [mbind option_bind].
    - destruct Hspec as (Hw & Hex). rewrite Hw, Hex. split; [reflexivity|exact I].
    - rewrite Hspec. split; reflexivity. }
  destruct Hlink as (Hfound & Hnone).
  split; [exact Hfound|]. split; [reflexivity|]. split; [exact Hnone|].
  split; [apply orElse_truthy; reflexivity|].
  destruct (truthy (Some query)) eqn:Hq; [|exact I].
  apply orElse_truthy, Hq.
Qed.

Lemma dropPrefix_append prefix : forall rest,
  dropPrefix prefix (prefix +:+ rest) = Some rest.
Proof.
  induction prefix as [|a prefix IH]; intros rest; [destruct rest; reflexivity|].
  change (String a prefix +:+ rest) with (String a (prefix +:+ rest)).
  cbn [dropPrefix]. rewrite Ascii.eqb_refl. apply IH.
Qed.

Lemma dropWordChars_append sub : forall rest,
  allWordChars sub = true ->
  dropWordChars (sub +:+ String ";" rest) = String ";" rest.
Proof.
  induction sub as [|c sub IH]; intros rest Hsub; [reflexivity|].
  cbn [allWordChars] in Hsub. apply andb_true_iff in Hsub as (Hc & Hsub).
  change (String c sub +:+ String ";" rest) with (String c (sub +:+ String ";" rest)).
  cbn [dropWordChars]. rewrite Hc. apply IH, Hsub.
Qed.

(** X10: a data URI whose type is [image/] followed by one or more word
    characters loses exactly its header: what [analyzeHandwriting] sends is
    the base64 payload, whatever the payload is.  In particular an
    illustration built by [generateIllustration] from such a type is sent as
    the bare data of its part. *)
Theorem data_uri_header_is_stripped
    (c : ascii) (sub payload : string) (responseText : option string)
    (Hc : isWordChar c = true) (Hsub : allWordChars sub = true) :
  stripDataPrefix ("data:image/" +:+ String c sub +:+ ";base64," +:+ payload) = payload /\
  fst (analyzeHandwriting
         ("data:image/" +:+ String c sub +:+ ";base64," +:+ payload) responseText)
    = payload /\
  (generateIllustration
     (ImageResponds (Some [mkPart (Some (mkInline (Some ("image/" +:+ String c sub))
                                                  (Some payload)))])) ≫=
   fun image => Some (stripDataPrefix image)) = Some payload.
Proof.
  assert (Hstrip :
    stripDataPrefix ("data:image/" +:+ String c sub +:+ ";base64," +:+ payload) = payload).
  { unfold stripDataPrefix. rewrite dropPrefix_append.
    change (String c sub +:+ ";base64," +:+ payload)
      with (String c (sub +:+ String ";" ("base64," +:+ payload))).
    cbv beta iota. rewrite Hc.
    change (String c (sub +:+ String ";" ("base64," +:+ payload)))
      with (String c sub +:+ String ";" ("base64," +:+ payload)).
    rewrite (dropWordChars_append (String c sub)).
    - change (String ";" ("base64," +:+ payload)) with (";base64," +:+ payload).
      rewrite dropPrefix_append. reflexivity.
    - cbn [allWordChars]. rewrite Hc, Hsub. reflexivity. }
  split; [exact Hstrip|]. split; [exact Hstrip|].
  cbn [generateIllustration default firstInline inlineData fmap option_fmap option_map
       mbind option_bind].
  unfold dataUri, interpolate; cbn [mimeType data default].
  f_equal. rewrite <- Hstrip at 2. reflexivity.
Qed.

Lemma data_uri_header_is_stripped_witness :
  isWordChar "p" = true /\ allWordChars "ng" = true /\
  stripDataPrefix "data:image/png;base64,iVBORw0KGgo=" = "iVBORw0KGgo=".
Proof.
  split; [reflexivity|]. split; [reflexivity|].
  exact (proj1 (data_uri_header_is_stripped "p" "ng" "iVBORw0KGgo=" None
                  eq_refl eq_refl)).
Defined.

Lemma firstInline_spec parts :
  match firstInline parts with
  | Some d => exists pre post,
      parts = pre ++ mkPart (Some d) :: post /\
      forallb (fun p => match inlineData p with Some _ => false | None => true end) pre
        = true
  | None =>
      forallb (fun p => match inlineData p with Some _ => false | None => true end) parts
        = true
  end.
Proof.
  induction parts as [|[d] parts IH]; [reflexivity|].
  cbn [firstInline inlineData]. destruct d as [d|].
  - exists [], parts. split; reflexivity.
  - revert IH. destruct (firstInline parts) as [d'|]; intros IH.
    + destruct IH as (pre & post & -> & Hpre).
      exists (mkPart None :: pre), post. split; [reflexivity|exact Hpre].
    + exact IH.
Qed.

(** X11: [generateIllustration] answers with an image exactly when the call
    did not throw and some part of the response has inline data; the image is
    the data URI of the first such part, and it is never the empty string, so
    the test [if (imgData)] of the caller passes for every image. *)
Theorem illustration_is_first_inline_part (call : ImageCall) :
  match generateIllustration call with
  | Some image =>
      truthy (Some image) = true /\
      exists pre d post,
        call = ImageResponds (Some (pre ++ mkPart (Some d) :: post)) /\
        forallb (fun p => match inlineData p with Some _ => false | None => true end) pre
          = true /\
        image = dataUri d
  | None =>
      match call with
      | ImageThrows | ImageResponds None => True
      | ImageResponds (Some parts) =>
          forallb (fun p => match inlineData p with Some _ => false | None => true end)
                  parts = true
      end
  end.
Proof.
  destruct call as [[parts|]|]; unfold generateIllustration; try exact I.
  change (default [] (Some parts)) with parts.
  generalize (firstInline_spec parts).
  destruct (firstInline parts) as [d|]; intros Hspec; cbn [fmap option_fmap option_map].
  - split; [reflexivity|].
    destruct Hspec as (pre & post & -> & Hpre). exists pre, d, post. auto.
  - exact Hspec.
Qed.

End ServiceFacts.

Module LibrarySearchFacts.
Import Library LibraryFacts.

Lemma startsWith_empty s : startsWith s "" = true.
Proof. destruct s; reflexivity. Qed.

Lemma includes_empty s : includes s "" = true.
Proof. destruct s; cbn [includes]; rewrite startsWith_empty; reflexivity. Qed.

Lemma startsWith_refl s : startsWith s s = true.
Proof.
  induction s as [|c s IH]; [reflexivity|].
  cbn [startsWith]. rewrite Ascii.eqb_refl. exact IH.
Qed.

Lemma includes_refl s : includes s s = true.
Proof. destruct s; cbn [includes]; rewrite startsWith_refl; reflexivity. Qed.

Lemma filter_all {A} (f : A -> bool) (l : list A) :
  (forall x, f x = true) -> List.filter f l = l.
Proof.
  intros Hf. induction l as [|x l IH]; [reflexivity|].
  cbn [List.filter]. rewrite Hf, IH. reflexivity.
Qed.

Lemma long_query_truthy q :
  (3 <? Z.of_nat (String.length q)) = true -> truthy (Some q) = true.
Proof. destruct q; [discriminate|reflexivity]. Qed.

(** X12: with the empty query every book is shown, in the order of the
    library, and a search calls nothing and leaves the books, the query and
    the searching flag as they are. *)
Theorem empty_query_shows_every_book (st : LibraryState) (answer : Answer) :
  filteredBooks (typed "" st) = books st /\
  handleSearch answer (typed "" st) =
    (mkLibrary "" (books st) (searching st) None, []).
Proof.
  assert (Hall : List.filter (titleMatches "") (books st) = books st).
  { apply filter_all. intros b. unfold titleMatches. apply includes_empty. }
  split; [exact Hall|].
  unfold handleSearch, handleSearch_issue; cbn [typed searchQuery books String.length].
  rewrite andb_false_r. reflexivity.
Qed.

(** X13: what a search leaves behind when the provider's response is put
    through [findExternalBookResource]: the searching flag is off when a
    call was made and as before otherwise; a link is shown only when the
    call was made and the resource was found, and a link that is shown has a
    url, a title and a description that are not empty; when the call
    rejects no link is shown. *)
Theorem shown_link_is_complete (st : LibraryState) (response : Service.SearchResponse) :
  let answer :=
    Resolves (Service.findExternalBookResource (searchQuery st) response) in
  searching (fst (handleSearch answer st)) =
    (match snd (handleSearch answer st) with [] => searching st | _ => false end) /\
  match externalLink (fst (handleSearch answer st)) with
  | Some l =>
      snd (handleSearch answer st) = [FindExternal (searchQuery st)] /\
      Service.findExternalBookResource (searchQuery st) response =
        mkResource true (linkTitle l) (link l) (description l) /\
      truthy (link l) = true /\ truthy (linkTitle l) = true /\
      truthy (description l) = true
  | None => True
  end /\
  externalLink (fst (handleSearch Rejects st)) = None.
Proof.
  cbn zeta.
  destruct (ServiceFacts.resource_found_iff_some_citation_has_link
              (searchQuery st) response) as (_ & Hlink & _ & Hdesc & Htitle).
  cbn zeta in Hlink, Hdesc, Htitle.
  unfold handleSearch, handleSearch_issue.
  destruct ((len (List.filter (titleMatches (searchQuery st)) (books st)) =? 0)
            && (3 <? Z.of_nat (String.length (searchQuery st)))) eqn:Hcall.
  - apply andb_true_iff in Hcall as (_ & Hlong).
    rewrite (long_query_truthy _ Hlong) in Htitle.
    cbn [fst snd handleSearch_answered].
    destruct (Service.findExternalBookResource (searchQuery st) response)
      as [fnd t l d] eqn:Hr.
    cbn [found resourceTitle resourceLink resourceDescription] in *.
    destruct fnd; cbn [setSearching setExternalLink searching externalLink
                       searchQuery books linkTitle link description].
    + repeat split; assumption.
    + repeat split.
  - cbn [fst snd setExternalLink externalLink searching]. repeat split.
Qed.

(** X14: for an administrator who types a non-empty title, [handleAddBook]
    appends one book with that title, and a search for the title in any
    letter case (a query of the same length that agrees with the title
    character by character up to the case of its letters) shows the book
    and calls nothing; Cancel or an empty title adds nothing; without
    administrator mode nothing is asked and nothing changes. *)
Theorem added_book_is_found
    (st : LibraryState) (title query : string) (now : Z) (answer : Answer)
    (Htitle : truthy (Some title) = true)
    (Hquery : sameText title query = true) :
  let book := mkBook (toString now) title "Unknown" "bg-gray-500" "Added manually" "" in
  let added := fst (handleAddBook true (Some title) now st) in
  books added = books st ++ [book] /\
  In book (filteredBooks (typed query added)) /\
  snd (handleSearch answer (typed query added)) = [] /\
  handleAddBook true None now st = (st, [Prompt "Book Title:"]) /\
  handleAddBook true (Some "") now st = (st, [Prompt "Book Title:"]) /\
  handleAddBook false (Some title) now st = (st, []).
Proof.
  cbn zeta. unfold handleAddBook. cbn [negb]. rewrite Htitle.
  cbn [fst books]. change (default "" (Some title)) with title.
  assert (Hin : In (mkBook (toString now) title "Unknown" "bg-gray-500"
                           "Added manually" "")
                   (List.filter (titleMatches query)
                      (books st ++ [mkBook (toString now) title "Unknown" "bg-gray-500"
                                           "Added manually" ""]))).
  { apply List.filter_In. split; [apply List.in_or_app; right; left; reflexivity|].
    unfold titleMatches; cbn [Library.title]. apply includes_lower.
    exists "", title, "". split; [|exact Hquery].
    symmetry. apply (ChatFacts.append_empty_r title). }
  split; [reflexivity|]. split; [exact Hin|].
  split; [|repeat split].
  rewrite handleSearch_calls. unfold handleSearch_issue; cbn [typed searchQuery books].
  destruct (List.filter (titleMatches query) _) as [|b bs]; [destruct Hin|].
  reflexivity.
Qed.

Lemma added_book_is_found_witness :
  truthy (Some "Organic Chemistry") = true /\
  sameText "Organic Chemistry" "ORGANIC chemistry" = true /\
  snd (handleSearch Rejects
         (typed "ORGANIC chemistry"
            (fst (handleAddBook true (Some "Organic Chemistry") 1762000000000 initial))))
    = [].
Proof.
  split; [reflexivity|]. split; [reflexivity|].
  exact (proj1 (proj2 (proj2
           (added_book_is_found initial "Organic Chemistry" "ORGANIC chemistry"
              1762000000000 Rejects eq_refl eq_refl)))).
Defined.

End LibrarySearchFacts.

Module NumberFacts.

(** Reading back what [toString] printed gives the number. *)
Lemma readNumber_toString (n : Z) : readNumber (toString n) = Some n.
Proof.
  unfold readNumber, toString.
  rewrite NilZero.isi.
  - cbn [fmap option_fmap option_map]. rewrite DecimalZ.of_to. reflexivity.
  - destruct n; cbn; try discriminate;
      intros [= H]; exact (DecimalPos.Unsigned.to_uint_nonnil _ H).
  - destruct n; cbn; try discriminate.
    intros [= H]; exact (DecimalPos.Unsigned.to_uint_nonnil _ H).
Qed.

Lemma toString_inj (a b : Z) : toString a = toString b -> a = b.
Proof.
  intros H. apply (f_equal readNumber) in H.
  rewrite !readNumber_toString in H. congruence.
Qed.

Lemma length_append (a b : string) :
  String.length (a +:+ b) = (String.length a + String.length b)%nat.
Proof.
  induction a as [|c a IH]; [reflexivity|].
  change (String c a +:+ b) with (String c (a +:+ b)). cbn [String.length].
  rewrite IH. reflexivity.
Qed.

Lemma append_inj_same_length (a a' b b' : string) :
  String.length a = String.length a' -> a +:+ b = a' +:+ b' -> a = a' /\ b = b'.
Proof.
  revert a'. induction a as [|c a IH]; intros [|c' a'] Hlen Heq;
    try discriminate Hlen.
  - split; [reflexivity|exact Heq].
  - change (String c (a +:+ b) = String c' (a' +:+ b')) in Heq.
    injection Heq as -> Heq. injection Hlen as Hlen.
    destruct (IH a' Hlen Heq) as (-> & ->). auto.
Qed.

End NumberFacts.

Module PlannerDisplayFacts.
Import Planner PlannerFacts NumberFacts.

Lemma secondsField_small (k : nat) :
  (k < 60)%nat ->
  String.length (secondsField (Z.of_nat k)) = 2%nat /\
  readNumber (secondsField (Z.of_nat k)) = Some (Z.of_nat k).
Proof.
  intros Hk.
  do 60 (destruct k as [|k]; [vm_compute; split; reflexivity|]).
  lia.
Qed.

Lemma secondsField_spec (s : Z) :
  0 <= s < 60 ->
  String.length (secondsField s) = 2%nat /\ readNumber (secondsField s) = Some s.
Proof.
  intros Hs. rewrite <- (Z2Nat.id s) by lia. apply secondsField_small. lia.
Qed.

(** X15: for a count that is not negative, the timer shows the decimal
    minutes, a colon and the seconds as exactly two characters whose value
    is the count modulo 60; two such counts that are shown the same are the
    same count. *)
Theorem formatTime_shows_one_count (a b : Z) (Ha : 0 <= a) (Hb : 0 <= b) :
  formatTime a = toString (a / 60) +:+ ":" +:+ secondsField (a mod 60) /\
  String.length (secondsField (a mod 60)) = 2%nat /\
  readNumber (secondsField (a mod 60)) = Some (a mod 60) /\
  (formatTime a = formatTime b -> a = b).
Proof.
  assert (Hfmt : forall n, 0 <= n ->
            formatTime n = toString (n / 60) +:+ ":" +:+ secondsField (n mod 60)).
  { intros n Hn. unfold formatTime. rewrite Z.rem_mod_nonneg by lia. reflexivity. }
  destruct (secondsField_spec (a mod 60)) as (Hla & Hra);
    [apply Z.mod_pos_bound; lia|].
  destruct (secondsField_spec (b mod 60)) as (Hlb & Hrb);
    [apply Z.mod_pos_bound; lia|].
  split; [apply Hfmt, Ha|]. split; [exact Hla|]. split; [exact Hra|].
  rewrite (Hfmt a Ha), (Hfmt b Hb). intros Heq.
  assert (Hlen : String.length (toString (a / 60)) = String.length (toString (b / 60))).
  { apply (f_equal String.length) in Heq.
    rewrite !length_append, Hla, Hlb in Heq. cbn [String.length] in Heq. lia. }
  destruct (append_inj_same_length _ _ _ _ Hlen Heq) as (Hm & Hrest).
  apply toString_inj in Hm.
  change (":" +:+ secondsField (a mod 60)) with (String ":" (secondsField (a mod 60)))
    in Hrest.
  change (":" +:+ secondsField (b mod 60)) with (String ":" (secondsField (b mod 60)))
    in Hrest.
  injection Hrest as Hs. rewrite Hs in Hra. rewrite Hra in Hrb.
  injection Hrb as Hmod.
  rewrite (Z.div_mod a 60), (Z.div_mod b 60) by lia. lia.
Qed.

Lemma formatTime_shows_one_count_witness :
  0 <= 1500 /\ 0 <= 65 /\
  formatTime 1500 = "25:00" /\ formatTime 65 = "1:05".
Proof.
  split; [discriminate|]. split; [discriminate|].
  split.
  - rewrite (proj1 (formatTime_shows_one_count 1500 65 ltac:(discriminate)
                      ltac:(discriminate))).
    vm_compute. reflexivity.
  - vm_compute. reflexivity.
Defined.

Lemma step_bounds e t :
  settled t = true -> 0 <= timerSeconds t <= 1500 ->
  settled (fst (step e t)) = true /\
  0 <= timerSeconds (fst (step e t)) <= 1500 /\
  count isAlert (snd (step e t)) + (if isTimerRunning (fst (step e t)) then 1 else 0)
    <= (if isStart e then 1 else 0) + (if isTimerRunning t then 1 else 0) /\
  count isSound (snd (step e t)) = count isAlert (snd (step e t)).
Proof.
  intros Hset Hb. split; [apply settled_settle|].
  destruct t as [s r m]. unfold settled in Hset. cbn [timerSeconds isTimerRunning] in *.
  destruct e, r;
    unfold step, handler, startTimer, intervalCallback, intervalArmed, settle, timerEffect;
    timer_simpl; destruct (0 <? s) eqn:Hpos; timer_simpl;
    repeat match goal with
      | |- context [if ?b then _ else _] => destruct b eqn:?; timer_simpl
      end;
    unfold count, len; cbn [List.filter isAlert isSound isStart length];
    repeat split; try lia; try discriminate.
Qed.

(** X16: from the first render on, whatever the sequence of button presses
    and seconds, the count stays between 0 and 1500, every alert comes with
    exactly one sound, and the alerts shown, plus one when the timer is
    still running, are at most the presses of the two start buttons: no
    notification without a session, and at most one per session. *)
Theorem notifications_are_bounded_by_sessions (es : list Event) :
  0 <= timerSeconds (fst (run es initial)) <= 1500 /\
  count isAlert (snd (run es initial))
    + (if isTimerRunning (fst (run es initial)) then 1 else 0)
    <= count isStart es /\
  count isSound (snd (run es initial)) = count isAlert (snd (run es initial)).
Proof.
  assert (Hgen : forall es t, settled t = true -> 0 <= timerSeconds t <= 1500 ->
    settled (fst (run es t)) = true /\
    0 <= timerSeconds (fst (run es t)) <= 1500 /\
    count isAlert (snd (run es t)) + (if isTimerRunning (fst (run es t)) then 1 else 0)
      <= count isStart es + (if isTimerRunning t then 1 else 0) /\
    count isSound (snd (run es t)) = count isAlert (snd (run es t))).
  { clear. induction es as [|e es IH]; intros t Hset Hb.
    - cbn [run fst snd]. unfold count, len; cbn. repeat split; try lia; assumption.
    - cbn [run].
      destruct (step_bounds e t Hset Hb) as (Hs1 & Hb1 & Hc1 & Hq1).
      destruct (step e t) as [t1 o1]; cbn [fst snd] in *.
      destruct (IH t1 Hs1 Hb1) as (Hs2 & Hb2 & Hc2 & Hq2).
      destruct (run es t1) as [t2 o2]; cbn [fst snd] in *.
      unfold count, len in *. cbn [List.filter].
      rewrite !List.filter_app, !length_app.
      destruct (isStart e); cbn [length]; repeat split; try assumption; lia. }
  destruct (Hgen es initial) as (_ & Hb & Hc & Hq); [reflexivity|cbn; lia|].
  cbn [isTimerRunning initial] in Hc. repeat split; try lia; try exact Hq.
Qed.

End PlannerDisplayFacts.

Module ChatTurnFacts.
Import Chat ChatFacts NumberFacts.

(** X17: [streamChatResponse] calls its callback once for every chunk that
    has a non-empty text, with that text, in arrival order, and for no other
    chunk; when the stream is exhausted it resolves to the concatenation of
    those texts, and when the provider raises it rejects after the calls
    made so far. *)
Theorem callback_sees_each_text_once (cs : list (option string)) (fin : StreamEnd) :
  streamChatResponse noteChunk (mkStream cs fin) [] =
    (if completed fin then Some (joined cs) else None, texts cs) /\
  joined cs = foldr String.append "" (texts cs) /\
  length (texts cs) = length (List.filter truthy cs).
Proof.
  assert (Hloop : forall cs ft seen,
            streamLoop noteChunk cs ft seen = (ft +:+ joined cs, seen ++ texts cs)).
  { clear. induction cs as [|c cs IH]; intros ft seen; cbn [streamLoop].
    - unfold texts; cbn. rewrite append_empty_r, app_nil_r. reflexivity.
    - rewrite joined_cons. unfold texts; cbn [List.filter].
      destruct (truthy c); [|apply IH].
      rewrite IH. unfold noteChunk, texts. cbn [List.map].
      rewrite append_assoc, <- app_assoc. reflexivity. }
  split; [|split].
  - unfold streamChatResponse; cbn [chunks ending]. rewrite Hloop.
    destruct fin; reflexivity.
  - unfold joined, texts. induction (List.filter truthy cs) as [|c l IH];
      [reflexivity|]. cbn [foldr List.map]. rewrite IH. reflexivity.
  - unfold texts. apply List.length_map.
Qed.

Lemma setText_other aid newText (prev : list Message) :
  Forall (fun m => id m <> aid) prev -> setText aid newText prev = prev.
Proof.
  induction 1 as [|m prev Hm _ IH]; [reflexivity|].
  unfold setText in *. cbn [List.map]. rewrite IH.
  destruct (String.eqb_spec (id m) aid); [contradiction|reflexivity].
Qed.

Lemma streamLoop_keeps_others clock before cs : forall ft t,
  Forall (fun m => id m <> aiMsgId clock) before ->
  shown t = before ++ [mkMessage (aiMsgId clock) model (buffer t) (aiStamp clock)] ->
  shown (snd (streamLoop (onChunk (aiMsgId clock)) cs ft t)) =
    before ++ [mkMessage (aiMsgId clock) model
                 (buffer (snd (streamLoop (onChunk (aiMsgId clock)) cs ft t)))
                 (aiStamp clock)].
Proof.
  induction cs as [|c cs IH]; intros ft t Hbefore Hshown; cbn [streamLoop];
    [exact Hshown|].
  destruct (truthy c); [|apply IH; assumption].
  apply IH; [exact Hbefore|].
  unfold onChunk; cbn [shown buffer].
  rewrite Hshown, setText_last, (setText_other _ _ _ Hbefore). reflexivity.
Qed.

(** X18: when the clock does not run backwards between the two ids and no
    earlier message carries the placeholder's id, a turn on a non-blank
    input leaves every earlier message as it was and appends exactly two:
    the user's message as typed, and the placeholder, whose text is the
    joined fragments when the stream is exhausted and the apology when the
    provider raises. *)
Theorem turn_appends_two_messages
    (clock : Clock) (hasSpeech : bool) (lang : Language)
    (cs : list (option string)) (fin : StreamEnd) (st : ChatState)
    (Hsent : isBlank (input st) = false)
    (Hclock : userIdTime clock <= aiIdTime clock)
    (Hfresh : Forall (fun m => id m <> aiMsgId clock) (messages st)) :
  messages (fst (handleSend clock hasSpeech lang (mkStream cs fin) st)) =
    messages st ++
      [ userMessage clock st;
        mkMessage (aiMsgId clock) model
                  (if completed fin then joined cs else apology) (aiStamp clock) ].
Proof.
  assert (Hbefore : Forall (fun m => id m <> aiMsgId clock)
                           (messages st ++ [userMessage clock st])).
  { apply Forall_app_2; [exact Hfresh|]. constructor; [|constructor].
    unfold userMessage, aiMsgId; cbn [id]. intros Heq.
    apply toString_inj in Heq. lia. }
  pose proof (streamLoop_keeps_others clock _ cs "" (mkTurn "" (opened clock st))
                Hbefore eq_refl) as Hshown.
  destruct (turn_after clock cs st) as (Hbuf & _).
  cbn zeta in Hbuf. rewrite Hbuf in Hshown.
  unfold handleSend, streamChatResponse; cbn [chunks ending]. rewrite Hsent.
  destruct (streamLoop (onChunk (aiMsgId clock)) cs "" (mkTurn "" (opened clock st)))
    as [ft t]; cbn [snd] in Hshown.
  destruct fin; cbn [fst messages completed]; rewrite Hshown.
  - rewrite <- app_assoc. reflexivity.
  - rewrite setText_last, (setText_other _ _ _ Hbefore), <- app_assoc. reflexivity.
Qed.

Lemma turn_appends_two_messages_witness :
  isBlank (input greeting) = false /\
  userIdTime sampleClock <= aiIdTime sampleClock /\
  Forall (fun m => id m <> aiMsgId sampleClock) (messages greeting) /\
  messages (fst (handleSend sampleClock false ENGLISH
                   (mkStream sampleChunks Exhausted) greeting)) =
    [ mkMessage "1" model "Hi! I'm Learn and Conquer." 1762000000000;
      mkMessage "1762000003000" user "What is osmosis?" 1762000003000;
      mkMessage "1762000003001" model "Osmosis is the diffusion of water."
                1762000003001 ].
Proof.
  assert (Hfresh : Forall (fun m => id m <> aiMsgId sampleClock) (messages greeting)).
  { constructor; [discriminate|constructor]. }
  split; [reflexivity|]. split; [discriminate|]. split; [exact Hfresh|].
  rewrite (turn_appends_two_messages sampleClock false ENGLISH sampleChunks Exhausted
             greeting eq_refl ltac:(discriminate) Hfresh).
  vm_compute. reflexivity.
Defined.

(** X19: a turn speaks at most once: the whole reply, in the language tag of
    the settings (en-US for English, Arabic and Urdu), exactly when the input
    is not blank, the stream is exhausted, voice mode is on and the browser
    has speech synthesis; nothing is spoken of a reply that failed.  A blank
    input changes nothing at all. *)
Theorem reply_is_spoken_whole_or_not_at_all
    (clock : Clock) (hasSpeech : bool) (lang : Language)
    (cs : list (option string)) (fin : StreamEnd) (st : ChatState) :
  snd (handleSend clock hasSpeech lang (mkStream cs fin) st) =
    (if negb (isBlank (input st)) && completed fin && isVoiceMode st && hasSpeech
     then [Speak (joined cs) (langTag lang)] else []) /\
  (if isBlank (input st)
   then fst (handleSend clock hasSpeech lang (mkStream cs fin) st) = st
   else True) /\
  langTag ENGLISH = "en-US" /\ langTag ARABIC = "en-US" /\ langTag URDU = "en-US".
Proof.
  split; [|split; [|repeat split]].
  - unfold handleSend, streamChatResponse; cbn [chunks ending].
    destruct (isBlank (input st)); cbn [negb andb]; [reflexivity|].
    destruct (turn_after clock cs st) as (Hbuf & _). cbn zeta in Hbuf.
    destruct (streamLoop (onChunk (aiMsgId clock)) cs "" (mkTurn "" (opened clock st)))
      as [ft t]; cbn [snd] in Hbuf.
    destruct fin; cbn [snd completed andb]; [|reflexivity].
    rewrite Hbuf. reflexivity.
  - unfold handleSend. destruct (isBlank (input st)); [reflexivity|exact I].
Qed.

End ChatTurnFacts.

Module LoginFacts.
Import LoginView.

Ltac login_cases :=
  repeat match goal with
    | H : context [nonEmpty ?x] |- _ => destruct (nonEmpty x) eqn:?; cbn [andb orb] in H
    | |- context [nonEmpty ?x] => destruct (nonEmpty x) eqn:?; cbn [andb orb]
    end;
  cbn [andb orb forallb complete] in *;
  try reflexivity; try discriminate; try assumption.

Lemma act_wellFormed e st :
  wellFormed st = true ->
  wellFormed (fst (act e st)) = true /\ forallb complete (snd (act e st)) = true.
Proof.
  destruct st as [stp n em r c p s g]. unfold wellFormed, act, handleNext, handleFinish,
    setStep; cbn [step name email isRegister country province syllabus grade].
  intros Hwf. apply andb_true_iff in Hwf as (Hstep & Hgrade).
  destruct (stp =? 1) eqn:H1; cbn [orb] in Hstep.
  - destruct e; cbn [fst snd forallb step name email grade];
      rewrite ?H1, ?Hgrade; cbn [orb andb]; try (split; reflexivity).
    destruct (nonEmpty n) eqn:Hn, (nonEmpty em) eqn:He; cbn [andb fst snd step name email grade forallb];
      rewrite ?H1, ?Hgrade, ?Hn, ?He; split; reflexivity.
  - apply andb_true_iff in Hstep as (Hstep & He).
    apply andb_true_iff in Hstep as (H2 & Hn).
    destruct e; cbn [fst snd forallb step name email grade];
      rewrite ?H1, ?H2, ?Hn, ?He, ?Hgrade; cbn [orb andb]; try (split; reflexivity).
    + destruct (existsb (String.eqb s0) gradeOptions) eqn:Hs;
        cbn [fst snd forallb step name email grade];
        rewrite ?H1, ?H2, ?Hn, ?He, ?Hgrade, ?Hs; split; reflexivity.
    + destruct (nonEmpty c && nonEmpty p && nonEmpty s && nonEmpty g) eqn:Hall;
        cbn [forallb complete profileCountry profileProvince profileSyllabus
             profileUserLevel]; [|split; reflexivity].
      rewrite Hn, He, Hgrade. cbn [andb]. rewrite Hall. split; reflexivity.
Qed.

(** X20: whatever is typed, selected and clicked on a freshly mounted login
    form, every call of [onLogin] carries a name, an email, a country, a
    province and a syllabus that are not empty and a grade that is one of
    the listed options other than the empty one; the form is on step 2 only
    with a name and an email. *)
Theorem onLogin_gets_a_complete_profile (es : list Event) :
  forallb complete (snd (run es initial)) = true /\
  wellFormed (fst (run es initial)) = true.
Proof.
  assert (Hgen : forall es st, wellFormed st = true ->
            forallb complete (snd (run es st)) = true /\
            wellFormed (fst (run es st)) = true).
  { clear. induction es as [|e es IH]; intros st Hwf; cbn [run]; [auto|].
    destruct (act_wellFormed e st Hwf) as (Hwf1 & Hc1).
    destruct (act e st) as [st1 o1]; cbn [fst snd] in *.
    destruct (IH st1 Hwf1) as (Hc2 & Hwf2).
    destruct (run es st1) as [st2 o2]; cbn [fst snd] in *.
    rewrite forallb_app, Hc1, Hc2. auto. }
  apply Hgen. reflexivity.
Qed.

End LoginFacts.

Module AppFacts.
Import App.

Lemma applyOutcomes_sound os : forall st,
  forallb LoginView.complete os = true ->
  Settings.isLoggedIn (user st) = false -> isAdminMode st = false ->
  LoginView.wellFormed (loginForm st) = true ->
  sound (applyOutcomes os st) = true /\ isAdminMode (applyOutcomes os st) = false.
Proof.
  assert (Hin : forall os st, forallb LoginView.complete os = true ->
            sound st = true -> isAdminMode st = false ->
            sound (applyOutcomes os st) = true /\
            isAdminMode (applyOutcomes os st) = false).
  { clear. induction os as [|[n e p|msg] os IH]; intros st Hos Hst Hadm;
      cbn [applyOutcomes]; [auto| |].
    - cbn [forallb] in Hos. apply andb_true_iff in Hos as (Ho & Hos).
      apply IH; [exact Hos| |exact Hadm].
      unfold sound in *; cbn [handleLogin loginForm isAdminMode user
        Settings.isLoggedIn Settings.name Settings.email].
      rewrite Hadm in *. cbn [LoginView.complete] in Ho.
      repeat (apply andb_true_iff in Ho as (Ho & ?)).
      apply andb_true_iff in Hst as (Hst & _). apply andb_true_iff in Hst as (Hwf & _).
      rewrite Hwf. cbn [andb]. apply andb_true_iff. split; assumption.
    - cbn [forallb] in Hos. apply IH; assumption. }
  intros st Hos Hlog Hadm Hwf. apply Hin; try assumption.
  unfold sound. rewrite Hwf, Hadm, Hlog. reflexivity.
Qed.

Lemma step_sound e st :
  sound st = true ->
  sound (step e st) = true /\
  (if isAdminMode (step e st)
   then orb (isAdminMode st) (typesSecret e) = true else True).
Proof.
  intros Hst. pose proof Hst as Hst'. unfold sound in Hst'.
  apply andb_true_iff in Hst' as (Hst' & Hname).
  apply andb_true_iff in Hst' as (Hwf & Hadm).
  assert (Hkeep : if isAdminMode st
                  then orb (isAdminMode st) (typesSecret e) = true else True).
  { destruct (isAdminMode st); [reflexivity|exact I]. }
  unfold step. destruct (Settings.isLoggedIn (user st)) eqn:Hlog; cbn [negb].
  - destruct (isSettingsView (currentView st)).
    + destruct e; try (split; [exact Hst|exact Hkeep]).
      destruct (Settings.ownerSwitchRendered (user st)) eqn:Hown;
        [|split; [exact Hst|exact Hkeep]].
      unfold Settings.ownerSwitchRendered in Hown.
      unfold sound, Settings.handleAdminToggle, Settings.onToggleAdmin.
      cbn [setIsAdminMode loginForm isAdminMode user typesSecret].
      rewrite Hwf, Hlog, Hown, Hname. cbn [andb].
      destruct (isAdminMode st); cbn [fst negb orb]; [auto|].
      destruct typed as [pwd|]; cbn [fst]; [|auto].
      destruct (String.eqb pwd Settings.ownerPassword); cbn [fst negb]; auto.
    + destruct e; try (split; [exact Hst|exact Hkeep]).
      * split; [reflexivity|exact I].
      * destruct (navigable (currentView st) v); split;
          first [exact Hst|exact Hkeep].
  - assert (Hoff : isAdminMode st = false).
    { destruct (isAdminMode st); [discriminate Hadm|reflexivity]. }
    destruct e; try (split; [exact Hst|exact Hkeep]).
    destruct (LoginFacts.act_wellFormed e (loginForm st) Hwf) as (Hwf1 & Hc1).
    destruct (LoginView.act e (loginForm st)) as [form outcomes]; cbn [fst snd] in *.
    destruct (applyOutcomes_sound outcomes
                (mkApp (user st) (currentView st) (settings st) (isAdminMode st) form))
      as (Hs & Ha); try assumption.
    split; [exact Hs|]. rewrite Ha. exact I.
Qed.

(** X21: in every state the application reaches, owner mode is on only
    while somebody is logged in under the owner's email, and whoever is
    logged in has a name and an email that are not empty. *)
Theorem owner_mode_only_for_the_owner (es : list Event) :
  (if isAdminMode (run es initial)
   then Settings.isLoggedIn (user (run es initial)) = true /\
        Settings.email (user (run es initial)) = "agdealers8@gmail.com"
   else True) /\
  (if Settings.isLoggedIn (user (run es initial))
   then Settings.name (user (run es initial)) <> "" /\
        Settings.email (user (run es initial)) <> ""
   else True).
Proof.
  assert (Hgen : forall es st, sound st = true -> sound (run es st) = true).
  { clear. induction es as [|e es IH]; intros st Hst; [exact Hst|].
    unfold run; cbn [foldl]. apply IH, step_sound, Hst. }
  pose proof (Hgen es initial eq_refl) as Hs. unfold sound in Hs.
  apply andb_true_iff in Hs as (Hs & Hname). apply andb_true_iff in Hs as (_ & Hadm).
  split.
  - destruct (isAdminMode (run es initial)); [|exact I].
    apply andb_true_iff in Hadm as (Hlog & Hmail).
    split; [exact Hlog|apply String.eqb_eq, Hmail].
  - destruct (Settings.isLoggedIn (user (run es initial))); [|exact I].
    apply andb_true_iff in Hname as (Hn & He). unfold LoginView.nonEmpty in *.
    split; intros Heq; rewrite Heq in *; discriminate.
Qed.

(** X22: when no press of the owner switch is answered with the owner
    password, owner mode is off after every event, whoever logs in. *)
Theorem no_owner_mode_without_the_password (es : list Event)
    (Hes : forallb (fun e => negb (typesSecret e)) es = true) :
  isAdminMode (run es initial) = false.
Proof.
  assert (Hgen : forall es st, sound st = true -> isAdminMode st = false ->
            forallb (fun e => negb (typesSecret e)) es = true ->
            isAdminMode (run es st) = false).
  { clear. induction es as [|e es IH]; intros st Hst Hoff Hes; [exact Hoff|].
    cbn [forallb] in Hes. apply andb_true_iff in Hes as (He & Hes).
    apply negb_true_iff in He.
    unfold run; cbn [foldl]. destruct (step_sound e st Hst) as (Hst1 & Hadm).
    apply IH; [exact Hst1| |exact Hes].
    destruct (isAdminMode (step e st)); [|reflexivity].
    rewrite Hoff, He in Hadm. discriminate Hadm. }
  apply Hgen; [reflexivity|reflexivity|exact Hes].
Qed.

Lemma no_owner_mode_without_the_password_witness :
  forallb (fun e => negb (typesSecret e)) visit = true /\
  isAdminMode (run visit initial) = false.
Proof.
  split; [reflexivity|].
  exact (no_owner_mode_without_the_password visit eq_refl).
Defined.

Lemma applyOutcomes_keeps os : forall st,
  currentView (applyOutcomes os st) = currentView st /\
  language (settings (applyOutcomes os st)) = language (settings st).
Proof.
  induction os as [|[n e p|msg] os IH]; intros st; cbn [applyOutcomes]; [auto| |apply IH].
  destruct (IH (handleLogin n e p st)) as (Hv & Hl). rewrite Hv, Hl. auto.
Qed.

(** X23: typing into the login form, logging in and logging out never change
    the current view or the language: whoever logs in next lands on the view
    the previous user left, in the language the previous user chose. *)
Theorem session_changes_keep_view_and_language (es : list Event) (st : AppState)
    (Hes : forallb isSessionEvent es = true) :
  currentView (run es st) = currentView st /\
  language (settings (run es st)) = language (settings st).
Proof.
  revert st. induction es as [|e es IH]; intros st; [auto|].
  cbn [forallb] in Hes. apply andb_true_iff in Hes as (He & Hes).
  unfold run; cbn [foldl]. fold (run es (step e st)).
  destruct (IH Hes (step e st)) as (Hv & Hl). rewrite Hv, Hl. clear IH Hv Hl.
  unfold step.
  destruct (Settings.isLoggedIn (user st)); cbn [negb].
  - destruct (isSettingsView (currentView st)); destruct e; try discriminate He; auto.
  - destruct e as [fe| | | | | | |]; try discriminate He; auto.
    destruct (LoginView.act fe (loginForm st)) as [form outcomes].
    exact (applyOutcomes_keeps outcomes
             (mkApp (user st) (currentView st) (settings st) (isAdminMode st) form)).
Qed.

Lemma session_changes_keep_view_and_language_witness :
  forallb isSessionEvent nextLearner = true /\
  currentView (run nextLearner afterAda) = QUIZ /\
  language (settings (run nextLearner afterAda)) = Chat.URDU.
Proof.
  split; [reflexivity|].
  exact (session_changes_keep_view_and_language nextLearner afterAda eq_refl).
Defined.

End AppFacts.

Module NotesFacts.
Import Notes NumberFacts.

Lemma without_spec i l n :
  In n (without i l) <-> In n l /\ id n <> i.
Proof.
  unfold without. rewrite List.filter_In, negb_true_iff.
  split; intros (Hin & Hne); (split; [exact Hin|]).
  - intros Heq. rewrite Heq, String.eqb_refl in Hne. discriminate.
  - apply String.eqb_neq, Hne.
Qed.





(** Deleting the middle one of three notes keeps the other two in their
    order; deleting an id that two notes share removes both. *)
Example delete_keeps_the_order :
  let a := mkNote "1" "A" "You" false "a" "General" "11/1/2026" in
  let b := mkNote "2" "B" "You" false "b" "General" "11/1/2026" in
  let c := mkNote "3" "C" "You" false "c" "General" "11/1/2026" in
  let st l := mkNotes l "t" "c" "" "" false None in
  handleDelete "2" (st [a; b; c]) = st [a; c] /\
  handleDelete "1" (st [a; b; a; c]) = st [b; c] /\
  handleDelete "4" (st [a; b; c]) = st [a; b; c].
Proof. cbn zeta. repeat split. Qed.

(** X25: two notes saved at different clock readings have different ids:
    deleting the first by its id keeps the second, and the other way
    round. *)
Theorem notes_saved_at_different_times_are_told_apart
    (st : NotesState) (t1 t2 : Z) (d1 d2 a b c e : string)
    (Htimes : t1 <> t2)
    (Hfirst : nonEmpty a && nonEmpty b = true)
    (Hsecond : nonEmpty c && nonEmpty e = true) :
  let saved := handleAdd t2 d2 (drafted c e (handleAdd t1 d1 (drafted a b st))) in
  notes (handleDelete (toString t1) saved) =
    mkNote (toString t2) c "You" false e "General" d2 :: without (toString t1) (notes st) /\
  notes (handleDelete (toString t2) saved) =
    mkNote (toString t1) a "You" false b "General" d1 :: without (toString t2) (notes st).
Proof.
  apply andb_true_iff in Hfirst as (Ha & Hb).
  apply andb_true_iff in Hsecond as (Hc & He).
  assert (H12 : String.eqb (toString t1) (toString t2) = false).
  { apply String.eqb_neq. intros Heq. apply Htimes, toString_inj, Heq. }
  assert (H21 : String.eqb (toString t2) (toString t1) = false).
  { apply String.eqb_neq. intros Heq. apply Htimes. symmetry. apply toString_inj, Heq. }
  cbn zeta. unfold handleAdd, drafted; cbn [titleCell contentCell notes].
  rewrite Ha, Hb; cbn [negb orb titleCell contentCell notes].
  rewrite Hc, He; cbn [negb orb handleDelete notes].
  unfold without at 1 3; cbn [List.filter id].
  rewrite H12, H21, !String.eqb_refl. cbn [negb]. split; reflexivity.
Qed.

Lemma notes_saved_at_different_times_are_told_apart_witness :
  1762000000000 <> 1762000000001 /\
  nonEmpty "Cells" && nonEmpty "ATP" = true /\
  nonEmpty "Waves" && nonEmpty "Light" = true /\
  notes (handleDelete (toString 1762000000000)
           (handleAdd 1762000000001 "11/1/2026"
              (drafted "Waves" "Light"
                 (handleAdd 1762000000000 "11/1/2026" (drafted "Cells" "ATP" initial)))))
    = [mkNote "1762000000001" "Waves" "You" false "Light" "General" "11/1/2026"].
Proof.
  split; [discriminate|]. split; [reflexivity|]. split; [reflexivity|].
  exact (proj1 (notes_saved_at_different_times_are_told_apart initial
                  1762000000000 1762000000001 "11/1/2026" "11/1/2026"
                  "Cells" "ATP" "Waves" "Light" ltac:(discriminate) eq_refl eq_refl)).
Defined.

(** X26: the pencil takes the note out of the list at once and puts its title
    and content into the two text cells; Save then puts back, at the head of
    the list, a note with the same title and content but a new id and date,
    written by "You", unverified, in "General"; without Save the note stays
    out of the list. *)
Theorem edit_then_save_rewrites_the_note
    (st : NotesState) (note : StudyNote) (now : Z) (today : string)
    (Hnote : nonEmpty (title note) && nonEmpty (content note) = true) :
  notes (handleEdit note st) = without (id note) (notes st) /\
  Forall (fun n => id n <> id note) (notes (handleEdit note st)) /\
  (titleCell (handleEdit note st), contentCell (handleEdit note st),
   isEditing (handleEdit note st)) = (title note, content note, Some (id note)) /\
  handleAdd now today (handleEdit note st) =
    mkNotes (mkNote (toString now) (title note) "You" false (content note) "General"
                    today :: without (id note) (notes st))
            "" "" (summarizeInput st) (summary st) (isSummarizing st) None.
Proof.
  apply andb_true_iff in Hnote as (Ht & Hc).
  split; [reflexivity|]. split.
  - apply Forall_forall. intros n Hn.
    apply list_elem_of_In in Hn. cbn [handleEdit notes] in Hn.
    apply without_spec in Hn. tauto.
  - split; [reflexivity|].
    unfold handleAdd, handleEdit; cbn [titleCell contentCell notes summarizeInput
                                        summary isSummarizing].
    rewrite Ht, Hc. reflexivity.
Qed.

Lemma edit_then_save_rewrites_the_note_witness :
  nonEmpty "Cells" && nonEmpty "ATP" = true /\
  notes (handleAdd 1762000000005 "11/2/2026"
           (handleEdit (mkNote "7" "Cells" "Dr. Khan" true "ATP" "Biology" "10/1/2026")
              (mkNotes [mkNote "7" "Cells" "Dr. Khan" true "ATP" "Biology" "10/1/2026"]
                       "" "" "" "" false None))) =
    [mkNote "1762000000005" "Cells" "You" false "ATP" "General" "11/2/2026"].
Proof.
  split; [reflexivity|].
  rewrite (proj2 (proj2 (proj2
            (edit_then_save_rewrites_the_note
               (mkNotes [mkNote "7" "Cells" "Dr. Khan" true "ATP" "Biology" "10/1/2026"]
                        "" "" "" "" false None)
               (mkNote "7" "Cells" "Dr. Khan" true "ATP" "Biology" "10/1/2026")
               1762000000005 "11/2/2026" eq_refl)))).
  reflexivity.
Defined.

Lemma act_ownNotes adm e st :
  forallb ownNote (notes st) = true ->
  forallb ownNote (notes (act adm e st)) = true.
Proof.
  intros Hall.
  assert (Hwithout : forall i, forallb ownNote (without i (notes st)) = true).
  { intros i. apply forallb_forall. intros n Hn. apply without_spec in Hn as (Hn & _).
    exact (proj1 (forallb_forall _ _) Hall n Hn). }
  destruct e as [s|s|now today|k|k]; cbn [act notes]; try exact Hall.
  - unfold handleAdd.
    destruct (nonEmpty (titleCell st)) eqn:Ht, (nonEmpty (contentCell st)) eqn:Hc;
      cbn [negb orb notes]; try exact Hall.
    cbn [forallb]. rewrite Hall. unfold ownNote; cbn [title content author verified category].
    rewrite Ht, Hc. reflexivity.
  - destruct (notes st !! k); [apply Hwithout|exact Hall].
  - destruct adm; [|exact Hall].
    destruct (notes st !! k); [apply Hwithout|exact Hall].
Qed.

(** X27: whatever is typed, saved, deleted and edited, starting from the
    empty list, every note in the list has a title and a content that are
    not empty, is written by "You", is unverified and is in "General". *)
Theorem every_note_is_the_users_own (isAdminMode : bool) (es : list Event) :
  forallb ownNote (notes (run isAdminMode es initial)) = true.
Proof.
  assert (Hgen : forall es st0, forallb ownNote (notes st0) = true ->
            forallb ownNote (notes (run isAdminMode es st0)) = true).
  { clear. induction es as [|e es IH]; intros st0 Hall; [exact Hall|].
    unfold run; cbn [foldl]. apply IH, act_ownNotes, Hall. }
  apply Hgen. reflexivity.
Qed.

(** X28: [handleSummarize] on a non-empty input always leaves a summary that
    is not empty, with the summarizing flag off: the provider's text, the
    sentence "Unable to summarize." when the response has no text or an
    empty one, the sentence "Error summarizing text." when the call throws;
    on an empty input it changes nothing. *)
Theorem summary_is_never_empty (answer : option (option string)) (st : NotesState) :
  (if nonEmpty (summarizeInput st)
   then nonEmpty (summary (handleSummarize answer st)) = true /\
        isSummarizing (handleSummarize answer st) = false /\
        summary (handleSummarize answer st) =
          match answer with
          | Some (Some t) => if String.eqb t "" then "Unable to summarize." else t
          | Some None => "Unable to summarize."
          | None => "Error summarizing text."
          end
   else handleSummarize answer st = st).
Proof.
  unfold handleSummarize. destruct (nonEmpty (summarizeInput st)); cbn [negb];
    [|reflexivity].
  cbn [summary isSummarizing]. split; [|split; [reflexivity|]].
  - destruct answer as [t|]; [|reflexivity].
    unfold Service.summarizeText.
    exact (ServiceFacts.orElse_truthy t "Unable to summarize." eq_refl).
  - destruct answer as [[t|]|]; try reflexivity.
    unfold Service.summarizeText, Service.orElse, truthy.
    destruct (String.eqb t ""); reflexivity.
Qed.

End NotesFacts.
